(** * GapAncillary: road-density mosaic and avoidance masks

    A shallow embedding of the two scripts of the repository,

      - [ne_roadDensity.py]  (stage 1: per-HUC line density, rounding,
        regional mosaic), and
      - [createAvoidAll_allRegions_2016Dec12.py]  (stage 2: urban groups,
        buffers, density thresholds, avoidance score),

    together with the properties stated about them.

    Both scripts are map algebra over rasters.  A raster is a finite map
    from cells (row, column) to values; a cell that is absent from the map
    is NoData.  Every Spatial Analyst tool runs under the geoprocessing
    environment ([arcpy.env.extent] and [arcpy.env.mask]); the environment
    is the finite set of cells of the boundary raster, and a tool produces
    NoData outside of it.  The tools themselves ([Con], [IsNull], [Int],
    [Plus], the relational operators, [RegionGroup], [ZonalStatistics],
    [EucDistance], [CellStatistics]) are library functions of ArcGIS; they
    are embedded with the cell-level behaviour their reference pages give. *)

From Stdlib Require Import ZArith QArith Qround Lia.
From stdpp Require Import gmap strings list fin_maps fin_sets sorting.

Local Open Scope Z_scope.

(** ** Rasters *)

(** A cell is addressed by its row and its column; rows grow downwards. *)
Definition cell : Type := Z * Z.

(** The analysis environment: the cells inside extent and mask. *)
Abbreviation environment := (gset cell).

(** [tabulate env f] is the raster that holds [f c] at every cell [c] of the
    environment and NoData elsewhere. *)
Definition tabulate {A : Type} (env : environment) (f : cell → option A) : gmap cell A :=
  map_imap (λ c _, f c) (gset_to_gmap () env).

(** A tool argument is a raster or a constant. *)
Inductive operand (A : Type) : Type :=
  | Const (k : A)
  | Rast (g : gmap cell A).
Arguments Const {A} k.
Arguments Rast {A} g.

Definition operand_at {A : Type} (o : operand A) (c : cell) : option A :=
  match o with
  | Const k => Some k
  | Rast g => g !! c
  end.

Definition bool_to_Z (b : bool) : Z := if b then 1 else 0.

(** ** Local (cell by cell) tools of [arcpy.sa] *)

Section LocalTools.
Context (env : environment).

(** [Raster > k]: 1 where the value exceeds [k], 0 where it does not,
    NoData where the input is NoData. *)
Definition GreaterThan (g : gmap cell Z) (k : Z) : gmap cell Z :=
  tabulate env (λ c, (λ v, bool_to_Z (k <? v)) <$> g !! c).

(** [Raster >= k]. *)
Definition GreaterThanEqual (g : gmap cell Z) (k : Z) : gmap cell Z :=
  tabulate env (λ c, (λ v, bool_to_Z (k <=? v)) <$> g !! c).

(** [Raster < k]. *)
Definition LessThan (g : gmap cell Z) (k : Z) : gmap cell Z :=
  tabulate env (λ c, (λ v, bool_to_Z (v <? k)) <$> g !! c).

(** [a & b]: Boolean And; an input is true when it is not zero; NoData
    when either input is NoData. *)
Definition BooleanAnd (a b : gmap cell Z) : gmap cell Z :=
  tabulate env (λ c,
    match a !! c, b !! c with
    | Some x, Some y => Some (bool_to_Z (negb (x =? 0) && negb (y =? 0)))
    | _, _ => None
    end).

(** [Plus(a, b)] and [a + b]: NoData when either input is NoData. *)
Definition Plus (a b : gmap cell Z) : gmap cell Z :=
  tabulate env (λ c,
    match a !! c, b !! c with
    | Some x, Some y => Some (x + y)
    | _, _ => None
    end).

(** [Raster + k] on a floating point raster. *)
Definition Plus_float (a : gmap cell Q) (k : Q) : gmap cell Q :=
  tabulate env (λ c, (λ v, Qplus v k) <$> a !! c).

(** [IsNull(r)]: 1 where the input is NoData, 0 where it has a value;
    never NoData inside the environment. *)
Definition IsNull {A : Type} (r : gmap cell A) : gmap cell Z :=
  tabulate env (λ c, Some (match r !! c with None => 1 | Some _ => 0 end)).

(** Truncation of one value toward zero. *)
Definition trunc (q : Q) : Z := Z.quot (Qnum q) (Z.pos (Qden q)).

(** [Int(r)]: every value truncated toward zero. *)
Definition Int (r : gmap cell Q) : gmap cell Z :=
  tabulate env (λ c, trunc <$> r !! c).

(** [Con(cond, t, f)] and [Con(cond, t)]: where the condition is not zero
    the true argument, where it is zero the false argument, which is
    NoData when it is left out; NoData where the condition is NoData. *)
Definition Con (cond : gmap cell Z) (t : operand Z) (f : option (operand Z))
    : gmap cell Z :=
  tabulate env (λ c,
    match cond !! c with
    | Some v =>
        if decide (v = 0)
        then match f with Some o => operand_at o c | None => None end
        else operand_at t c
    | None => None
    end).

(** [CellStatistics(rasters, "MAXIMUM")] with the default "DATA": the
    largest of the values present at the cell, NoData when there is none. *)
Definition max_present (vs : list Z) : option Z :=
  foldr (λ v acc, Some (match acc with Some a => Z.max v a | None => v end))
        None vs.

Definition cellstatistics_MAXIMUM (rs : list (gmap cell Z)) : gmap cell Z :=
  tabulate env (λ c, max_present (omap (λ r, r !! c) rs)).
End LocalTools.

(** ** Stage 1, tail of [ne_roadDensity.py] *)

(** The raster [null] of one HUC (lines 181-186): half is added, the sum is
    truncated to an integer, NoData is set to 0. *)
Definition null (env : environment) (dens : gmap cell Q) : gmap cell Z :=
  Con env (IsNull env (Int env (Plus_float env dens (1 # 2))))
      (Const 0)
      (Some (Rast (Int env (Plus_float env dens (1 # 2))))).

(** The regional density raster (lines 188-201): the cell maximum of the
    rasters named [null_...] of the output directory, which are the [null]
    rasters of the HUCs saved by the loop before. *)
Definition ne_rddens (env : environment) (dens : list (gmap cell Q)) : gmap cell Z :=
  cellstatistics_MAXIMUM env (null env <$> dens).

(** ** Zonal and distance tools of [arcpy.sa] *)

(** The input of a tool as the tool sees it: the part inside the
    environment. *)
Definition clip {A : Type} (env : environment) (g : gmap cell A) : gmap cell A :=
  tabulate env (λ c, g !! c).

(** The [number_neighbors] argument of [RegionGroup]. *)
Inductive number_neighbors : Type := FOUR | EIGHT.

Definition neighbours (nb : number_neighbors) (c : cell) : list cell :=
  let '(r, k) := c in
  match nb with
  | FOUR => [(r - 1, k); (r, k - 1); (r, k + 1); (r + 1, k)]
  | EIGHT => [(r - 1, k - 1); (r - 1, k); (r - 1, k + 1);
              (r, k - 1); (r, k + 1);
              (r + 1, k - 1); (r + 1, k); (r + 1, k + 1)]
  end.

(** One round of region growing: the cells of [X] and their neighbours that
    hold the value [v] (zone connectivity "WITHIN": a region is made of
    connected cells of one value). *)
Definition grow (nb : number_neighbors) (g : gmap cell Z) (v : Z)
    (X : gset cell) : gset cell :=
  X ∪ filter (λ c, g !! c = Some v)
             (set_bind (λ x, list_to_set (C := gset cell) (neighbours nb x)) X).

(** The region of a cell: growing from the cell until nothing is added; as
    many rounds as the raster has cells are enough. *)
Definition region (nb : number_neighbors) (g : gmap cell Z) (c : cell) : gset cell :=
  match g !! c with
  | Some v => Nat.iter (size (dom g)) (grow nb g v) {[c]}
  | None => ∅
  end.

(** The scan of a raster goes through the rows from the top, each row from
    the left. *)
Definition cell_le (a b : cell) : Prop :=
  a.1 < b.1 ∨ (a.1 = b.1 ∧ a.2 ≤ b.2).

#[global] Instance cell_le_dec : RelDecision cell_le.
Proof. intros a b. unfold cell_le. solve_decision. Defined.

Definition scan_order (X : gset cell) : list cell :=
  merge_sort cell_le (elements X).

(** The numbering of the regions: every cell of the scan that has no number
    yet starts a region, which gets the next number; a cell that holds the
    excluded value gets 0. *)
Fixpoint number_regions (nb : number_neighbors) (g : gmap cell Z) (excluded : Z)
    (todo : list cell) (next : Z) (out : gmap cell Z) : gmap cell Z :=
  match todo with
  | [] => out
  | c :: rest =>
      match g !! c, out !! c with
      | Some v, None =>
          if decide (v = excluded)
          then number_regions nb g excluded rest next (<[c := 0]> out)
          else number_regions nb g excluded rest (next + 1)
                 (gset_to_gmap next (region nb g c) ∪ out)
      | _, _ => number_regions nb g excluded rest next out
      end
  end.

(** [RegionGroup(in_raster, number_neighbors, "WITHIN", "ADD_LINK",
    excluded_value)]: every cell gets the number of its region, numbers
    start at 1; NoData stays NoData. *)
Definition RegionGroup (env : environment) (in_raster : gmap cell Z)
    (nb : number_neighbors) (excluded_value : Z) : gmap cell Z :=
  let g := clip env in_raster in
  number_regions nb g excluded_value (scan_order (dom g)) 1 ∅.

(** The cells of one zone, and the sum of the values of the zone; NoData in
    the value raster is ignored ("DATA"), a zone without any value has no
    sum. *)
Definition zone_cells (zones : gmap cell Z) (z : Z) : gset cell :=
  filter (λ c, zones !! c = Some z) (dom zones).

Definition zone_values (zones values : gmap cell Z) (z : Z) : list Z :=
  omap (λ c, values !! c) (elements (zone_cells zones z)).

Definition zone_sum (zones values : gmap cell Z) (z : Z) : option Z :=
  match zone_values zones values z with
  | [] => None
  | vs => Some (foldr Z.add 0 vs)
  end.

(** [ZonalStatistics(in_zone_data, "VALUE", in_value_raster, "SUM", "DATA")]:
    every cell of a zone gets the sum of the zone. *)
Definition ZonalStatistics_SUM (env : environment)
    (in_zone_data in_value_raster : gmap cell Z) : gmap cell Z :=
  let zones := clip env in_zone_data in
  let values := clip env in_value_raster in
  tabulate env (λ c, zones !! c ≫= zone_sum zones values).

(** Squared distance between two cell centres, in cells. *)
Definition sq_cells (a b : cell) : Z :=
  (a.1 - b.1) * (a.1 - b.1) + (a.2 - b.2) * (a.2 - b.2).

Definition min_present (vs : list Z) : option Z :=
  foldr (λ v acc, Some (match acc with Some a => Z.min v a | None => v end))
        None vs.

(** [EucDistance(in_source_data, maximum_distance, cell_size)]: the distance
    from every cell to the closest source, a source being a cell of the
    input that is not NoData; NoData where that distance exceeds
    [maximum_distance].  The raster holds the square of the distance (in
    map units), which is exact; the scripts only ask where it is NoData. *)
Definition EucDistance (env : environment) (in_source_data : gmap cell Z)
    (maximum_distance cell_size : Z) : gmap cell Z :=
  let sources := elements (dom (clip env in_source_data)) in
  tabulate env (λ c,
    d ← min_present ((λ s, cell_size * cell_size * sq_cells c s) <$> sources);
    if decide (0 ≤ maximum_distance ∧ d ≤ maximum_distance * maximum_distance)
    then Some d else None).

(** ** Stage 2: the rasters of one region, as values *)

(** Lines 121-128 and 143-150: region group, zonal sum of the mask over the
    regions, and the test [> 5] with no false value. *)
Definition size_filter (env : environment) (urb01 : gmap cell Z) : gmap cell Z :=
  let urb02 := RegionGroup env urb01 EIGHT 0 in
  let urb03 := ZonalStatistics_SUM env urb02 urb01 in
  Con env (GreaterThan env urb03 5) (Const 1) None.

(** Lines 130-134 and 152-156: distance up to [radius], cell size 30, then
    0 where the distance is NoData and 1 elsewhere. *)
Definition buffer (env : environment) (urb04 : gmap cell Z) (radius : Z) : gmap cell Z :=
  let urb05 := EucDistance env urb04 radius 30 in
  Con env (IsNull env urb05) (Const 0) (Some (Const 1)).

(** Lines 162-169: the density reclass. *)
Definition rdd01 (env : environment) (density : gmap cell Z) (level : Z) : gmap cell Z :=
  Con env (GreaterThanEqual env density level) (Const 1) (Some (Const 0)).

(** Lines 174-200: sum of a buffer and a reclass, then 1 where positive. *)
Definition avd02 (env : environment) (urb06 rdd : gmap cell Z) : gmap cell Z :=
  Con env (GreaterThan env (Plus env urb06 rdd) 0) (Const 1) (Some (Const 0)).

Section Region.
Context (env : environment) (nlcd density : gmap cell Z).

Definition tmp1_urb01 : gmap cell Z :=
  Con env (BooleanAnd env (GreaterThan env nlcd 21) (LessThan env nlcd 25))
      (Const 1) (Some (Const 0)).
Definition tmp1_urb02 : gmap cell Z := RegionGroup env tmp1_urb01 EIGHT 0.
Definition tmp1_urb03 : gmap cell Z := ZonalStatistics_SUM env tmp1_urb02 tmp1_urb01.
Definition tmp1_urb04 : gmap cell Z :=
  Con env (GreaterThan env tmp1_urb03 5) (Const 1) None.
Definition tmp1_urb05 : gmap cell Z := EucDistance env tmp1_urb04 120 30.
Definition tmp1_urb06 : gmap cell Z :=
  Con env (IsNull env tmp1_urb05) (Const 0) (Some (Const 1)).

Definition tmp2_urb01 : gmap cell Z :=
  Con env (BooleanAnd env (GreaterThan env nlcd 22) (LessThan env nlcd 25))
      (Const 1) (Some (Const 0)).
Definition tmp2_urb02 : gmap cell Z := RegionGroup env tmp2_urb01 EIGHT 0.
Definition tmp2_urb03 : gmap cell Z := ZonalStatistics_SUM env tmp2_urb02 tmp2_urb01.
Definition tmp2_urb04 : gmap cell Z :=
  Con env (GreaterThan env tmp2_urb03 5) (Const 1) None.
Definition tmp2_urb05 : gmap cell Z := EucDistance env tmp2_urb04 90 30.
Definition tmp2_urb06 : gmap cell Z :=
  Con env (IsNull env tmp2_urb05) (Const 0) (Some (Const 1)).

Definition tmp1_rdd01 : gmap cell Z :=
  Con env (GreaterThanEqual env density 25) (Const 1) (Some (Const 0)).
Definition tmp2_rdd01 : gmap cell Z :=
  Con env (GreaterThanEqual env density 65) (Const 1) (Some (Const 0)).
Definition tmp3_rdd01 : gmap cell Z :=
  Con env (GreaterThanEqual env density 130) (Const 1) (Some (Const 0)).

Definition tmp1_avd01 : gmap cell Z := Plus env tmp1_urb06 tmp1_rdd01.
Definition tmp1_avd02 : gmap cell Z :=
  Con env (GreaterThan env tmp1_avd01 0) (Const 1) (Some (Const 0)).
Definition tmp2_avd01 : gmap cell Z := Plus env tmp2_urb06 tmp2_rdd01.
Definition tmp2_avd02 : gmap cell Z :=
  Con env (GreaterThan env tmp2_avd01 0) (Const 1) (Some (Const 0)).
Definition tmp3_avd01 : gmap cell Z := Plus env tmp2_urb06 tmp3_rdd01.
Definition tmp3_avd02 : gmap cell Z :=
  Con env (GreaterThan env tmp3_avd01 0) (Const 1) (Some (Const 0)).

Definition avdMask : gmap cell Z :=
  Plus env (Plus env tmp1_avd02 tmp2_avd02) tmp3_avd02.
End Region.

(** ** Stage 2: the script *)

(** What a run of the script acts on: the raster datasets by path, the
    geoprocessing environment [arcpy.env], and the lines printed. *)
Record world : Type := World {
  datasets : gmap string (gmap cell Z);
  env_extent : string;
  env_mask : string;
  env_snapRaster : string;
  env_workspace : string;
  stdout : list string
}.

(** A statement returns a value or raises; either way it leaves a world. *)
Inductive result (A : Type) : Type :=
  | Returned (a : A)
  | Raised.
Arguments Returned {A} a.
Arguments Raised {A}.

Definition script (A : Type) : Type := world → result A * world.

#[global] Instance script_ret : MRet script := λ A a w, (Returned a, w).

#[global] Instance script_bind : MBind script := λ A B f m w,
  match m w with
  | (Returned a, w') => f a w'
  | (Raised, w') => (Raised, w')
  end.

Definition set_extent (path : string) : script unit := λ w,
  (Returned (), World (datasets w) path (env_mask w) (env_snapRaster w)
                      (env_workspace w) (stdout w)).

Definition set_mask (path : string) : script unit := λ w,
  (Returned (), World (datasets w) (env_extent w) path (env_snapRaster w)
                      (env_workspace w) (stdout w)).

Definition set_snapRaster (path : string) : script unit := λ w,
  (Returned (), World (datasets w) (env_extent w) (env_mask w) path
                      (env_workspace w) (stdout w)).

Definition set_workspace (path : string) : script unit := λ w,
  (Returned (), World (datasets w) (env_extent w) (env_mask w)
                      (env_snapRaster w) path (stdout w)).

(** The cells a tool works on: extent and mask name rasters that have to
    exist; the script sets both to the boundary raster of the region, whose
    cells with a value are the cells of the analysis. *)
Definition analysis_environment : script environment := λ w,
  match datasets w !! env_extent w, datasets w !! env_mask w with
  | Some e, Some m => (Returned (dom e ∩ dom m), w)
  | _, _ => (Raised, w)
  end.

(** [Raster(path)]: opening a dataset that does not exist raises. *)
Definition Raster (path : string) : script (gmap cell Z) := λ w,
  match datasets w !! path with
  | Some g => (Returned g, w)
  | None => (Raised, w)
  end.

(** [r.save(path)]; outputs may be overwritten. *)
Definition save (path : string) (g : gmap cell Z) : script unit := λ w,
  (Returned (), World (<[path := g]> (datasets w)) (env_extent w) (env_mask w)
                      (env_snapRaster w) (env_workspace w) (stdout w)).

(** [r.save(name)] with a bare name saves into the workspace. *)
Definition save_in_workspace (name : string) (g : gmap cell Z) : script unit := λ w,
  save (env_workspace w +:+ "\" +:+ name) g w.

Definition print (line : string) : script unit := λ w,
  (Returned (), World (datasets w) (env_extent w) (env_mask w)
                      (env_snapRaster w) (env_workspace w) (stdout w ++ [line])).

(** A tool applied to one or two datasets named by path. *)
Definition tool1 (f : environment → gmap cell Z → gmap cell Z) (path : string)
    : script (gmap cell Z) :=
  a ← Raster path; env ← analysis_environment; mret (f env a).

Definition tool2 (f : environment → gmap cell Z → gmap cell Z → gmap cell Z)
    (path1 path2 : string) : script (gmap cell Z) :=
  a ← Raster path1; b ← Raster path2; env ← analysis_environment;
  mret (f env a b).

(** [try: body  except: handler]; the bare [except] catches everything. *)
Definition try_except (body handler : script unit) : script unit := λ w,
  match body w with
  | (Returned _, w') => (Returned (), w')
  | (Raised, w') => handler w'
  end.

(** [for x in xs: body]. *)
Fixpoint for_each {A : Type} (xs : list A) (body : A → script unit) : script unit :=
  match xs with
  | [] => mret ()
  | x :: rest => body x ;; for_each rest body
  end.

Definition nlcd_path : string :=
  "P:\Proj7\Landcover\NLCD\NLCD2011\landcover\nlcd_2011_landcover_2011__snapped_to_GAP.img".

Definition bnd_path (region : string) : string :=
  "Y:\TIGER\reg_" +:+ region +:+ "\" +:+ region +:+ "_bnd".

Definition density_path (region : string) : string :=
  "Y:\TIGER\reg_" +:+ region +:+ "\mosaic\" +:+ region +:+ "_rddens".

Definition scratch_dir (region : string) : string :=
  "Y:\TIGER\reg_" +:+ region +:+ "\scratch".

Definition workspace_dir (region : string) : string :=
  "Y:\TIGER\reg_" +:+ region.

(** The body of the [try] (lines 103-204). *)
Definition region_body (region : string) : script unit :=
  let scratch := scratch_dir region in
  set_extent (bnd_path region) ;;
  set_mask (bnd_path region) ;;
  set_snapRaster "P:\Proj3\USGap\Ancillary\snapnlcd_2016" ;;
  let nlcd := nlcd_path in
  let density := density_path region in
  set_workspace (workspace_dir region) ;;
  (* for low level avoid *)
  t ← tool2 (λ env a b, Con env (BooleanAnd env (GreaterThan env a 21) (LessThan env b 25))
                            (Const 1) (Some (Const 0))) nlcd nlcd;
  save (scratch +:+ "\tmp1_urb01") t ;;
  t ← tool1 (λ env a, RegionGroup env a EIGHT 0) (scratch +:+ "\tmp1_urb01");
  save (scratch +:+ "\tmp1_urb02") t ;;
  t ← tool2 ZonalStatistics_SUM (scratch +:+ "\tmp1_urb02") (scratch +:+ "\tmp1_urb01");
  save (scratch +:+ "\tmp1_urb03") t ;;
  t ← tool1 (λ env a, Con env (GreaterThan env a 5) (Const 1) None)
            (scratch +:+ "\tmp1_urb03");
  save (scratch +:+ "\tmp1_urb04") t ;;
  t ← tool1 (λ env a, EucDistance env a 120 30) (scratch +:+ "\tmp1_urb04");
  save (scratch +:+ "\tmp1_urb05") t ;;
  t ← tool1 (λ env a, Con env (IsNull env a) (Const 0) (Some (Const 1)))
            (scratch +:+ "\tmp1_urb05");
  save (scratch +:+ "\tmp1_urb06") t ;;
  (* for med/high level avoid *)
  t ← tool2 (λ env a b, Con env (BooleanAnd env (GreaterThan env a 22) (LessThan env b 25))
                            (Const 1) (Some (Const 0))) nlcd nlcd;
  save (scratch +:+ "\tmp2_urb01") t ;;
  t ← tool1 (λ env a, RegionGroup env a EIGHT 0) (scratch +:+ "\tmp2_urb01");
  save (scratch +:+ "\tmp2_urb02") t ;;
  t ← tool2 ZonalStatistics_SUM (scratch +:+ "\tmp2_urb02") (scratch +:+ "\tmp2_urb01");
  save (scratch +:+ "\tmp2_urb03") t ;;
  t ← tool1 (λ env a, Con env (GreaterThan env a 5) (Const 1) None)
            (scratch +:+ "\tmp2_urb03");
  save (scratch +:+ "\tmp2_urb04") t ;;
  t ← tool1 (λ env a, EucDistance env a 90 30) (scratch +:+ "\tmp2_urb04");
  save (scratch +:+ "\tmp2_urb05") t ;;
  t ← tool1 (λ env a, Con env (IsNull env a) (Const 0) (Some (Const 1)))
            (scratch +:+ "\tmp2_urb05");
  save (scratch +:+ "\tmp2_urb06") t ;;
  (* reclass rd dens *)
  t ← tool1 (λ env a, Con env (GreaterThanEqual env a 25) (Const 1) (Some (Const 0))) density;
  save (scratch +:+ "\tmp1_rdd01") t ;;
  t ← tool1 (λ env a, Con env (GreaterThanEqual env a 65) (Const 1) (Some (Const 0))) density;
  save (scratch +:+ "\tmp2_rdd01") t ;;
  t ← tool1 (λ env a, Con env (GreaterThanEqual env a 130) (Const 1) (Some (Const 0))) density;
  save (scratch +:+ "\tmp3_rdd01") t ;;
  (* sums of buffer and reclass, reclassed to 1,0 *)
  t ← tool2 Plus (scratch +:+ "\tmp1_urb06") (scratch +:+ "\tmp1_rdd01");
  save (scratch +:+ "\tmp1_avd01") t ;;
  t ← tool1 (λ env a, Con env (GreaterThan env a 0) (Const 1) (Some (Const 0)))
            (scratch +:+ "\tmp1_avd01");
  save (scratch +:+ "\tmp1_avd02") t ;;
  t ← tool2 Plus (scratch +:+ "\tmp2_urb06") (scratch +:+ "\tmp2_rdd01");
  save (scratch +:+ "\tmp2_avd01") t ;;
  t ← tool1 (λ env a, Con env (GreaterThan env a 0) (Const 1) (Some (Const 0)))
            (scratch +:+ "\tmp2_avd01");
  save (scratch +:+ "\tmp2_avd02") t ;;
  t ← tool2 Plus (scratch +:+ "\tmp2_urb06") (scratch +:+ "\tmp3_rdd01");
  save (scratch +:+ "\tmp3_avd01") t ;;
  t ← tool1 (λ env a, Con env (GreaterThan env a 0) (Const 1) (Some (Const 0)))
            (scratch +:+ "\tmp3_avd01");
  save (scratch +:+ "\tmp3_avd02") t ;;
  a ← Raster (scratch +:+ "\tmp1_avd02");
  b ← Raster (scratch +:+ "\tmp2_avd02");
  c ← Raster (scratch +:+ "\tmp3_avd02");
  env ← analysis_environment;
  save_in_workspace ("avoid_mask_" +:+ region) (Plus env (Plus env a b) c).

(** The loop of the script (lines 100-208) over a list of regions. *)
Definition main (regions : list string) : script unit :=
  for_each regions (λ region,
    try_except (region_body region) (print (region +:+ " failed."))).

(** Stage 1 has the same shape of loop over the HUCs (lines 126-168 of
    [ne_roadDensity.py]).  The body of its [try] is vector processing
    (selection of the roads of the HUC, dissolve, line density), which is
    taken as given; [print huc, " failed."] separates its two items by a
    space. *)
Definition huc_loop (huc_body : string → script unit) (hucIDs : list string)
    : script unit :=
  for_each hucIDs (λ huc,
    try_except (huc_body huc) (print (huc +:+ " " +:+ " failed."))).

(** Where the final mask of a region is saved: the bare name resolved in
    the workspace. *)
Definition avoid_path (region : string) : string :=
  workspace_dir region +:+ "\" +:+ "avoid_mask_" +:+ region.

(** The datasets after the urban part of the body (lines 118-156), and after
    the whole body, as values of the rasters of the region. *)
Definition urban_datasets (region : string) (env : environment) (nlcd : gmap cell Z)
    (ds : gmap string (gmap cell Z)) : gmap string (gmap cell Z) :=
  <[scratch_dir region +:+ "\tmp2_urb06" := tmp2_urb06 env nlcd]>
  (<[scratch_dir region +:+ "\tmp2_urb05" := tmp2_urb05 env nlcd]>
  (<[scratch_dir region +:+ "\tmp2_urb04" := tmp2_urb04 env nlcd]>
  (<[scratch_dir region +:+ "\tmp2_urb03" := tmp2_urb03 env nlcd]>
  (<[scratch_dir region +:+ "\tmp2_urb02" := tmp2_urb02 env nlcd]>
  (<[scratch_dir region +:+ "\tmp2_urb01" := tmp2_urb01 env nlcd]>
  (<[scratch_dir region +:+ "\tmp1_urb06" := tmp1_urb06 env nlcd]>
  (<[scratch_dir region +:+ "\tmp1_urb05" := tmp1_urb05 env nlcd]>
  (<[scratch_dir region +:+ "\tmp1_urb04" := tmp1_urb04 env nlcd]>
  (<[scratch_dir region +:+ "\tmp1_urb03" := tmp1_urb03 env nlcd]>
  (<[scratch_dir region +:+ "\tmp1_urb02" := tmp1_urb02 env nlcd]>
  (<[scratch_dir region +:+ "\tmp1_urb01" := tmp1_urb01 env nlcd]> ds))))))))))).

Definition scratch_datasets (region : string) (env : environment)
    (nlcd density : gmap cell Z)
    (ds : gmap string (gmap cell Z)) : gmap string (gmap cell Z) :=
  <[scratch_dir region +:+ "\tmp3_avd02" := tmp3_avd02 env nlcd density]>
  (<[scratch_dir region +:+ "\tmp3_avd01" := tmp3_avd01 env nlcd density]>
  (<[scratch_dir region +:+ "\tmp2_avd02" := tmp2_avd02 env nlcd density]>
  (<[scratch_dir region +:+ "\tmp2_avd01" := tmp2_avd01 env nlcd density]>
  (<[scratch_dir region +:+ "\tmp1_avd02" := tmp1_avd02 env nlcd density]>
  (<[scratch_dir region +:+ "\tmp1_avd01" := tmp1_avd01 env nlcd density]>
  (<[scratch_dir region +:+ "\tmp3_rdd01" := tmp3_rdd01 env density]>
  (<[scratch_dir region +:+ "\tmp2_rdd01" := tmp2_rdd01 env density]>
  (<[scratch_dir region +:+ "\tmp1_rdd01" := tmp1_rdd01 env density]>
  (urban_datasets region env nlcd ds))))))))).

Definition region_datasets (region : string) (env : environment)
    (nlcd density : gmap cell Z)
    (ds : gmap string (gmap cell Z)) : gmap string (gmap cell Z) :=
  <[avoid_path region := avdMask env nlcd density]>
  (scratch_datasets region env nlcd density ds).

(** The last character of a path. *)
Fixpoint last_char (s : string) : option Ascii.ascii :=
  match s with
  | EmptyString => None
  | String a s' => match last_char s' with Some b => Some b | None => Some a end
  end.

(** ** Notions used to state the properties *)

(** Two cells are adjacent in a raster when they are neighbours and hold the
    same value; they are connected when a chain of adjacent cells links
    them. *)
Definition adjacent (nb : number_neighbors) (g : gmap cell Z) (a b : cell) : Prop :=
  b ∈ neighbours nb a ∧ ∃ v, g !! a = Some v ∧ g !! b = Some v.

Definition connected (nb : number_neighbors) (g : gmap cell Z) : relation cell :=
  rtc (adjacent nb g).

(** What holds of the numbers given so far while the regions of a raster
    [g] are numbered: numbers are below the next free one, an excluded cell
    has 0, a region is numbered as a whole, and two cells with the same
    number are connected. *)
Definition numbered (nb : number_neighbors) (g : gmap cell Z) (excluded : Z)
    (next : Z) (out : gmap cell Z) : Prop :=
  1 ≤ next ∧
  (∀ c z, out !! c = Some z →
     ∃ v, g !! c = Some v ∧
          ((v = excluded ∧ z = 0) ∨ (v ≠ excluded ∧ 1 ≤ z < next))) ∧
  (∀ c c' z, out !! c = Some z → z ≠ 0 → connected nb g c c' →
     out !! c' = Some z) ∧
  (∀ c c' z, out !! c = Some z → out !! c' = Some z → z ≠ 0 →
     connected nb g c c').

(** A boolean mask holds 0 or 1 wherever it has a value. *)
Definition boolean_mask (m : gmap cell Z) : Prop :=
  ∀ c v, m !! c = Some v → v = 0 ∨ v = 1.

(** How many of the given cells of criterion rasters are true. *)
Definition count_true (vs : list (option Z)) : Z :=
  Z.of_nat (length (filter (λ o, o = Some 1) vs)).

(** The direct group-size filter, following the wording of the
    specification: label the mask, count the cells of every group in a
    table, keep the cells whose group has more than [minSize] cells.
    Group identifiers are positive; 0 is background. *)
Definition label (env : environment) (mask : gmap cell Z) : gmap cell Z :=
  RegionGroup env mask EIGHT 0.

Definition GroupSizeTable (labels : gmap cell Z) : gmap Z nat :=
  map_fold (λ _ z table,
              if decide (0 < z)
              then <[z := S (default O (table !! z))]> table
              else table)
           ∅ labels.

Definition sizeFilter_direct (env : environment) (mask : gmap cell Z) (minSize : nat)
    : gmap cell Z :=
  let labels := label env mask in
  let cellCount := GroupSizeTable labels in
  tabulate env (λ c,
    z ← labels !! c;
    Some (match cellCount !! z with
          | Some n => bool_to_Z (bool_decide (minSize < n)%nat)
          | None => 0
          end)).

(** ** Small rasters for the examples *)

(** The rectangle of [h] rows and [w] columns. *)
Definition rectangle (h w : nat) : gset cell :=
  list_to_set (r ← seq 0 h; k ← seq 0 w; [(Z.of_nat r, Z.of_nat k)]).

(** A mask on 5 by 5 cells: a group of six true cells that touch by sides
    and corners, one true cell alone, one false cell, NoData elsewhere. *)
Definition blob_mask : gmap cell Z :=
  list_to_map [((0, 0), 1); ((0, 1), 1); ((1, 1), 1); ((2, 2), 1);
               ((2, 3), 1); ((3, 3), 1); ((4, 0), 1); ((0, 4), 0)].

(** A land cover of 5 by 10 cells: developed classes on the cells of
    [blob_mask], open water and forest elsewhere; a density raster with one
    value of every level away from the developed cells; and a world that
    holds the inputs of region "ne". *)
Definition example_nlcd : gmap cell Z :=
  ((λ v, if decide (v = 1) then 23 else 11) <$> blob_mask)
    ∪ gset_to_gmap 41 (rectangle 5 10).

Definition example_density : gmap cell Z :=
  <[(4, 9) := 30]> (<[(4, 8) := 70]> (<[(4, 7) := 140]>
    (gset_to_gmap 0 (rectangle 5 10)))).

Definition example_world : world :=
  World (<[bnd_path "ne" := gset_to_gmap 1 (rectangle 5 10)]>
          (<[nlcd_path := example_nlcd]>
            (<[density_path "ne" := example_density]> ∅)))
        "" "" "" "" [].

(** ** Lookup lemmas *)

Lemma lookup_tabulate {A : Type} (env : environment) (f : cell → option A) (c : cell) :
  tabulate env f !! c = if decide (c ∈ env) then f c else None.
Proof.
  unfold tabulate. rewrite map_lookup_imap, lookup_gset_to_gmap.
  case_decide; simpl.
  - rewrite option_guard_True by done. done.
  - rewrite option_guard_False by done. done.
Qed.

Lemma tabulate_dom_subseteq {A : Type} (env : environment) (f : cell → option A) :
  dom (tabulate env f) ⊆ env.
Proof.
  intros c. rewrite elem_of_dom, lookup_tabulate.
  case_decide; [done|]. by intros [? ?].
Qed.

Lemma tabulate_ext {A : Type} (env : environment) (f g : cell → option A) :
  (∀ c, c ∈ env → f c = g c) → tabulate env f = tabulate env g.
Proof.
  intros H. apply map_eq. intros c. rewrite !lookup_tabulate.
  case_decide; auto.
Qed.

Lemma clip_lookup {A : Type} (env : environment) (g : gmap cell A) (c : cell) :
  clip env g !! c = if decide (c ∈ env) then g !! c else None.
Proof. unfold clip. by rewrite lookup_tabulate. Qed.

Lemma clip_id {A : Type} (env : environment) (g : gmap cell A) :
  dom g ⊆ env → clip env g = g.
Proof.
  intros H. apply map_eq. intros c. rewrite clip_lookup.
  case_decide as Hc; [done|].
  symmetry. apply not_elem_of_dom. set_solver.
Qed.

Lemma clip_tabulate {A : Type} (env : environment) (f : cell → option A) :
  clip env (tabulate env f) = tabulate env f.
Proof. apply clip_id, tabulate_dom_subseteq. Qed.

Section LocalLookups.
Context (env : environment) (c : cell) (Hc : c ∈ env).

Lemma lookup_GreaterThan g k :
  GreaterThan env g k !! c = (λ v, bool_to_Z (k <? v)) <$> g !! c.
Proof using Hc. unfold GreaterThan. rewrite lookup_tabulate. by rewrite decide_True. Qed.

Lemma lookup_GreaterThanEqual g k :
  GreaterThanEqual env g k !! c = (λ v, bool_to_Z (k <=? v)) <$> g !! c.
Proof using Hc. unfold GreaterThanEqual. rewrite lookup_tabulate. by rewrite decide_True. Qed.

Lemma lookup_LessThan g k :
  LessThan env g k !! c = (λ v, bool_to_Z (v <? k)) <$> g !! c.
Proof using Hc. unfold LessThan. rewrite lookup_tabulate. by rewrite decide_True. Qed.

Lemma lookup_BooleanAnd a b :
  BooleanAnd env a b !! c =
    match a !! c, b !! c with
    | Some x, Some y => Some (bool_to_Z (negb (x =? 0) && negb (y =? 0)))
    | _, _ => None
    end.
Proof using Hc. unfold BooleanAnd. rewrite lookup_tabulate. by rewrite decide_True. Qed.

Lemma lookup_Plus a b :
  Plus env a b !! c =
    match a !! c, b !! c with
    | Some x, Some y => Some (x + y)
    | _, _ => None
    end.
Proof using Hc. unfold Plus. rewrite lookup_tabulate. by rewrite decide_True. Qed.


Lemma lookup_IsNull {A : Type} (r : gmap cell A) :
  IsNull env r !! c = Some (match r !! c with None => 1 | Some _ => 0 end).
Proof using Hc. unfold IsNull. rewrite lookup_tabulate. by rewrite decide_True. Qed.


Lemma lookup_Con cond t f :
  Con env cond t f !! c =
    match cond !! c with
    | Some v =>
        if decide (v = 0)
        then match f with Some o => operand_at o c | None => None end
        else operand_at t c
    | None => None
    end.
Proof using Hc. unfold Con. rewrite lookup_tabulate. by rewrite decide_True. Qed.

Lemma lookup_cellstatistics_MAXIMUM rs :
  cellstatistics_MAXIMUM env rs !! c = max_present (omap (λ r, r !! c) rs).
Proof using Hc.
  unfold cellstatistics_MAXIMUM. rewrite lookup_tabulate. by rewrite decide_True.
Qed.
End LocalLookups.

Lemma lookup_outside {A : Type} (env : environment) (f : cell → option A) (c : cell) :
  c ∉ env → tabulate env f !! c = None.
Proof. intros H. rewrite lookup_tabulate. by rewrite decide_False. Qed.

(** ** Rounding and filling (stage 1) *)





(** Truncation is not the floor below zero; the densities are not there. *)
Example trunc_below_zero :
  trunc ((-12 # 10) + (1 # 2)) = 0 ∧ Qfloor ((-12 # 10) + (1 # 2)) = -1.
Proof. split; reflexivity. Qed.


(** ** The mosaic (stage 1) *)

Lemma max_present_app (xs ys : list Z) :
  max_present (xs ++ ys) =
    match max_present xs, max_present ys with
    | Some x, Some y => Some (Z.max x y)
    | Some x, None => Some x
    | None, o => o
    end.
Proof.
  induction xs as [|x xs IH]; simpl.
  - by destruct (max_present ys).
  - rewrite IH.
    destruct (max_present xs), (max_present ys); f_equal; lia.
Qed.

Lemma max_present_Permutation (xs ys : list Z) :
  xs ≡ₚ ys → max_present xs = max_present ys.
Proof.
  induction 1 as [|x xs ys _ IH|x y xs|xs ys zs _ IH1 _ IH2]; simpl.
  - done.
  - by rewrite IH.
  - destruct (max_present xs); f_equal; lia.
  - congruence.
Qed.

Lemma cellstatistics_MAXIMUM_ext (env : environment) (l1 l2 : list (gmap cell Z)) :
  (∀ c, c ∈ env →
        max_present (omap (λ r, r !! c) l1) = max_present (omap (λ r, r !! c) l2)) →
  cellstatistics_MAXIMUM env l1 = cellstatistics_MAXIMUM env l2.
Proof. intros H. by apply tabulate_ext. Qed.

Lemma cellstatistics_MAXIMUM_single (env : environment) (r : gmap cell Z) :
  cellstatistics_MAXIMUM env [r] = clip env r.
Proof.
  apply tabulate_ext. intros c _. simpl. by destruct (r !! c).
Qed.

Lemma null_dom (env : environment) (dens : gmap cell Q) : dom (null env dens) ⊆ env.
Proof. apply tabulate_dom_subseteq. Qed.

(** C6.  The cell maximum of [CellStatistics] (line 201) does not depend on
    the order of the rasters nor on how they are grouped: it is commutative
    and associative as an operation on two rasters, invariant under
    permutation of its list, and the maximum of a concatenation is the
    maximum of the two partial maxima; and the mosaic of the rounded raster
    of one single HUC is that rounded raster. *)
Theorem cellstatistics_MAXIMUM_assoc_comm_single (env : environment) :
  (∀ a b, cellstatistics_MAXIMUM env [a; b] = cellstatistics_MAXIMUM env [b; a]) ∧
  (∀ a b c,
     cellstatistics_MAXIMUM env [cellstatistics_MAXIMUM env [a; b]; c] =
     cellstatistics_MAXIMUM env [a; cellstatistics_MAXIMUM env [b; c]]) ∧
  (∀ l1 l2, l1 ≡ₚ l2 →
     cellstatistics_MAXIMUM env l1 = cellstatistics_MAXIMUM env l2) ∧
  (∀ l1 l2,
     cellstatistics_MAXIMUM env (l1 ++ l2) =
     cellstatistics_MAXIMUM env
       [cellstatistics_MAXIMUM env l1; cellstatistics_MAXIMUM env l2]) ∧
  (∀ dens, ne_rddens env [dens] = null env dens).
Proof.
  repeat split.
  - intros a b. apply cellstatistics_MAXIMUM_ext. intros c _. simpl.
    destruct (a !! c), (b !! c); simpl; f_equal; lia.
  - intros a b c. apply cellstatistics_MAXIMUM_ext. intros x Hx. simpl.
    rewrite !lookup_cellstatistics_MAXIMUM by done. simpl.
    destruct (a !! x), (b !! x), (c !! x); simpl; f_equal; lia.
  - intros l1 l2 Hp. apply cellstatistics_MAXIMUM_ext. intros c _.
    apply max_present_Permutation. by rewrite Hp.
  - intros l1 l2. apply cellstatistics_MAXIMUM_ext. intros c Hc. simpl.
    rewrite !lookup_cellstatistics_MAXIMUM by done.
    rewrite omap_app, max_present_app.
    destruct (max_present (omap _ l1)), (max_present (omap _ l2)); simpl; done.
  - intros dens. unfold ne_rddens. simpl.
    rewrite cellstatistics_MAXIMUM_single. apply clip_id, null_dom.
Qed.

(** ** Regions are the classes of connected cells *)

Lemma neighbours_sym (nb : number_neighbors) (a b : cell) :
  b ∈ neighbours nb a → a ∈ neighbours nb b.
Proof.
  destruct a as [r k], b as [r' k'], nb; simpl;
    rewrite !elem_of_cons, !elem_of_nil;
    intros H; repeat destruct H as [H|H]; try done; simplify_eq;
    repeat match goal with
           | |- _ ∨ _ => first [solve [left; f_equal; lia] | right]
           end.
Qed.

Lemma neighbours_irrefl (nb : number_neighbors) (a : cell) : a ∉ neighbours nb a.
Proof.
  destruct a as [r k], nb; simpl;
    rewrite !elem_of_cons, !elem_of_nil;
    intros H; repeat destruct H as [H|H]; try done; simplify_eq; lia.
Qed.

Lemma adjacent_sym (nb : number_neighbors) (g : gmap cell Z) (a b : cell) :
  adjacent nb g a b → adjacent nb g b a.
Proof.
  intros [Hn (v & Ha & Hb)]. split; [by apply neighbours_sym|]. eauto.
Qed.

Lemma connected_refl (nb : number_neighbors) (g : gmap cell Z) (a : cell) :
  connected nb g a a.
Proof. apply rtc_refl. Qed.

Lemma connected_trans (nb : number_neighbors) (g : gmap cell Z) (a b c : cell) :
  connected nb g a b → connected nb g b c → connected nb g a c.
Proof. apply rtc_trans. Qed.

Lemma connected_sym (nb : number_neighbors) (g : gmap cell Z) (a b : cell) :
  connected nb g a b → connected nb g b a.
Proof.
  induction 1 as [|a b c Hab _ IH]; [apply rtc_refl|].
  eapply rtc_r; [exact IH|]. by apply adjacent_sym.
Qed.

Lemma connected_value (nb : number_neighbors) (g : gmap cell Z) (a b : cell) :
  connected nb g a b → g !! b = g !! a.
Proof.
  induction 1 as [|a b c [_ (v & Ha & Hb)] _ IH]; [done|]. congruence.
Qed.

Lemma elem_of_grow (nb : number_neighbors) (g : gmap cell Z) (v : Z) (X : gset cell) (y : cell) :
  y ∈ grow nb g v X ↔
  y ∈ X ∨ (g !! y = Some v ∧ ∃ x, x ∈ X ∧ y ∈ neighbours nb x).
Proof.
  unfold grow. rewrite elem_of_union, elem_of_filter, elem_of_set_bind.
  setoid_rewrite elem_of_list_to_set. done.
Qed.

Lemma grow_subseteq (nb : number_neighbors) (g : gmap cell Z) (v : Z) (X : gset cell) :
  X ⊆ grow nb g v X.
Proof. intros y Hy. apply elem_of_grow. by left. Qed.

Section Growing.
Context (nb : number_neighbors) (g : gmap cell Z) (c : cell) (v : Z).
Context (Hc : g !! c = Some v).

Let rounds (n : nat) : gset cell := Nat.iter n (grow nb g v) {[c]}.

Lemma rounds_sound (n : nat) (y : cell) :
  y ∈ rounds n → connected nb g c y.
Proof using Hc.
  revert y. induction n as [|n IH]; intros y; unfold rounds; simpl.
  - intros ->%elem_of_singleton. apply rtc_refl.
  - rewrite elem_of_grow. intros [Hy|(Hy & x & Hx & Hn)]; [by apply IH|].
    eapply rtc_r; [apply IH, Hx|]. split; [done|].
    exists v. split; [|done].
    rewrite (connected_value nb g c x) by (apply IH, Hx). done.
Qed.

Lemma rounds_in_dom (n : nat) : rounds n ⊆ dom g.
Proof using Hc.
  intros y Hy. apply elem_of_dom.
  rewrite (connected_value nb g c y) by (eapply rounds_sound, Hy). eauto.
Qed.

Lemma rounds_start (n : nat) : c ∈ rounds n.
Proof.
  induction n as [|n IH]; unfold rounds; simpl; [set_solver|].
  by apply grow_subseteq.
Qed.

Lemma rounds_fixed (m k : nat) :
  grow nb g v (rounds m) = rounds m → rounds (m + k) = rounds m.
Proof.
  intros Hfix. induction k as [|k IH].
  - by rewrite Nat.add_0_r.
  - rewrite Nat.add_succ_r. unfold rounds in *. simpl. by rewrite IH.
Qed.

Lemma rounds_progress (n : nat) :
  (∃ m, (m ≤ n)%nat ∧ grow nb g v (rounds m) = rounds m) ∨
  (n + 1 ≤ size (rounds n))%nat.
Proof.
  induction n as [|n [(m & Hm & Hfix)|Hsize]].
  - right. change (rounds 0) with ({[c]} : gset cell).
    rewrite size_singleton. lia.
  - left. exists m. split; [lia|done].
  - destruct (decide (grow nb g v (rounds n) = rounds n)) as [Hfix|Hne].
    + left. exists n. split; [lia|done].
    + right. change (rounds (S n)) with (grow nb g v (rounds n)).
      assert (rounds n ⊂ grow nb g v (rounds n)) as Hlt%subset_size; [|lia].
      split; [apply grow_subseteq|].
      intros Hsub. apply Hne. apply set_eq. intros y. split; [apply Hsub|].
      apply grow_subseteq.
Qed.

Lemma rounds_closed : grow nb g v (rounds (size (dom g))) = rounds (size (dom g)).
Proof using Hc.
  destruct (rounds_progress (size (dom g))) as [(m & Hm & Hfix)|Hsize].
  - replace (size (dom g)) with (m + (size (dom g) - m))%nat by lia.
    rewrite rounds_fixed by done. done.
  - pose proof (subseteq_size _ _ (rounds_in_dom (size (dom g)))). lia.
Qed.

Lemma rounds_complete (y : cell) :
  connected nb g c y → y ∈ rounds (size (dom g)).
Proof using Hc.
  revert y. apply rtc_ind_r.
  - apply rounds_start.
  - intros x y Hx [Hn (u & Hxu & Hyu)] IH.
    rewrite <- rounds_closed. apply elem_of_grow. right. split.
    + rewrite Hyu, <- Hxu. rewrite (connected_value nb g c x) by done. done.
    + eauto.
Qed.
End Growing.

Lemma elem_of_region (nb : number_neighbors) (g : gmap cell Z) (c y : cell) :
  y ∈ region nb g c ↔ is_Some (g !! c) ∧ connected nb g c y.
Proof.
  unfold region. destruct (g !! c) as [v|] eqn:Hc.
  - split.
    + intros Hy. split; [eauto|]. by eapply rounds_sound.
    + intros [_ Hy]. by eapply rounds_complete.
  - split; [set_solver|]. by intros [[? ?] _].
Qed.

(** ** The numbering of the regions *)

Lemma lookup_new_region (n : Z) (X : gset cell) (out : gmap cell Z) (x : cell) :
  (gset_to_gmap n X ∪ out) !! x = if decide (x ∈ X) then Some n else out !! x.
Proof.
  rewrite lookup_union, lookup_gset_to_gmap. case_decide.
  - rewrite option_guard_True by done. simpl. by destruct (out !! x).
  - rewrite option_guard_False by done. simpl. by destruct (out !! x).
Qed.

Section Numbering.
Context (nb : number_neighbors) (g : gmap cell Z) (excluded : Z).

Lemma numbered_empty : numbered nb g excluded 1 ∅.
Proof.
  split; [lia|]. repeat split; intros *; rewrite lookup_empty; done.
Qed.

Lemma region_fresh (next : Z) (out : gmap cell Z) (c x : cell) (v : Z) :
  numbered nb g excluded next out →
  g !! c = Some v → v ≠ excluded → out !! c = None →
  x ∈ region nb g c → out !! x = None.
Proof.
  intros (_ & H1 & H2 & _) Hc Hv Hout [_ Hx]%elem_of_region.
  destruct (out !! x) as [z|] eqn:Hz; [|done]. exfalso.
  destruct (decide (z = 0)) as [->|Hz0].
  - destruct (H1 _ _ Hz) as (u & Hu & [[-> _]|[_ ?]]); [|lia].
    rewrite (connected_value nb g c x) in Hu by done. congruence.
  - apply connected_sym in Hx. rewrite (H2 _ _ _ Hz Hz0 Hx) in Hout. done.
Qed.

Lemma numbered_excluded (next : Z) (out : gmap cell Z) (c : cell) :
  numbered nb g excluded next out →
  g !! c = Some excluded → out !! c = None →
  numbered nb g excluded next (<[c := 0]> out).
Proof.
  intros (H0 & H1 & H2 & H3) Hc Hout. split; [done|]. repeat split.
  - intros x z. rewrite lookup_insert. case_decide as Hx.
    + intros [= <-]. subst x. eauto.
    + apply H1.
  - intros x x' z. rewrite !lookup_insert.
    case_decide as Hx; [intros [= <-]; done|].
    intros Hz Hz0 Hconn. case_decide as Hx'.
    + subst x'. rewrite (H2 _ _ _ Hz Hz0 Hconn) in Hout. done.
    + eauto.
  - intros x x' z. rewrite !lookup_insert.
    case_decide; [intros [= <-] _; done|].
    case_decide; [intros _ [= <-]; done|]. apply H3.
Qed.

Lemma numbered_region (next : Z) (out : gmap cell Z) (c : cell) (v : Z) :
  numbered nb g excluded next out →
  g !! c = Some v → v ≠ excluded → out !! c = None →
  numbered nb g excluded (next + 1) (gset_to_gmap next (region nb g c) ∪ out).
Proof.
  intros Hnum Hc Hv Hout.
  pose proof (region_fresh next out c) as Hfresh.
  destruct Hnum as (H0 & H1 & H2 & H3).
  assert (Hnum : numbered nb g excluded next out) by done.
  split; [lia|]. repeat split.
  - intros x z. rewrite lookup_new_region. case_decide as Hx.
    + intros [= <-]. apply elem_of_region in Hx as [_ Hx].
      exists v. rewrite (connected_value nb g c x) by done.
      split; [done|]. right. split; [done|lia].
    + intros (u & Hu & [?|[? ?]])%H1; exists u; split; try done;
        [by left|right; split; [done|lia]].
  - intros x x' z. rewrite !lookup_new_region.
    case_decide as Hx.
    + intros [= <-] _ Hconn. rewrite decide_True; [done|].
      apply elem_of_region in Hx as [Hs Hx]. apply elem_of_region.
      split; [done|]. by eapply connected_trans.
    + intros Hz Hz0 Hconn. pose proof (H2 _ _ _ Hz Hz0 Hconn) as Hz'.
      case_decide as Hx'; [|done].
      rewrite (Hfresh x' v Hnum Hc Hv Hout Hx') in Hz'. done.
  - intros x x' z. rewrite !lookup_new_region.
    case_decide as Hx; case_decide as Hx'.
    + intros _ _ _.
      apply elem_of_region in Hx as [_ Hx]. apply elem_of_region in Hx' as [_ Hx'].
      eapply connected_trans; [by apply connected_sym|done].
    + intros [= <-] (u & _ & [[_ ?]|[_ ?]])%H1; lia.
    + intros (u & _ & [[_ ?]|[_ ?]])%H1 [= <-]; lia.
    + apply H3.
Qed.

Lemma number_regions_numbered (todo : list cell) (next : Z) (out : gmap cell Z) :
  numbered nb g excluded next out →
  ∃ next',
    numbered nb g excluded next' (number_regions nb g excluded todo next out) ∧
    (∀ c z, out !! c = Some z →
            number_regions nb g excluded todo next out !! c = Some z) ∧
    (∀ c, c ∈ todo → is_Some (g !! c) →
          is_Some (number_regions nb g excluded todo next out !! c)).
Proof.
  revert next out. induction todo as [|c rest IH]; intros next out Hnum; simpl.
  - exists next. split; [done|]. split; [done|]. by intros c ?%elem_of_nil.
  - destruct (g !! c) as [v|] eqn:Hc; [destruct (out !! c) as [z|] eqn:Hout|].
    + destruct (IH next out Hnum) as (next' & Hn & Hkeep & Hcover).
      exists next'. split; [done|]. split; [done|].
      intros x [->|Hx]%elem_of_cons Hs; [|by apply Hcover].
      rewrite (Hkeep _ _ Hout). eauto.
    + case_decide as Hv.
      * subst v.
        destruct (IH next (<[c := 0]> out)) as (next' & Hn & Hkeep & Hcover).
        { by apply numbered_excluded. }
        exists next'. split; [done|]. split.
        -- intros x z Hz. apply Hkeep. rewrite lookup_insert_ne; [done|].
           intros ->. congruence.
        -- intros x [->|Hx]%elem_of_cons Hs; [|by apply Hcover].
           rewrite (Hkeep c 0); [eauto|]. apply lookup_insert_eq.
      * destruct (IH (next + 1) (gset_to_gmap next (region nb g c) ∪ out))
          as (next' & Hn & Hkeep & Hcover).
        { by eapply numbered_region. }
        exists next'. split; [done|]. split.
        -- intros x z Hz. apply Hkeep. rewrite lookup_new_region.
           case_decide as Hx; [|done].
           rewrite (region_fresh next out c x v) in Hz by done. done.
        -- intros x [->|Hx]%elem_of_cons Hs; [|by apply Hcover].
           rewrite (Hkeep c next); [eauto|]. rewrite lookup_new_region.
           rewrite decide_True; [done|]. apply elem_of_region.
           split; [eauto|apply connected_refl].
    + destruct (IH next out Hnum) as (next' & Hn & Hkeep & Hcover).
      exists next'. split; [done|]. split; [done|].
      intros x [->|Hx]%elem_of_cons Hs; [|by apply Hcover].
      rewrite Hc in Hs. by destruct Hs.
Qed.
End Numbering.

Lemma elem_of_scan_order (X : gset cell) (c : cell) : c ∈ scan_order X ↔ c ∈ X.
Proof. unfold scan_order. rewrite merge_sort_Permutation. apply elem_of_elements. Qed.

Lemma RegionGroup_numbered (env : environment) (m : gmap cell Z)
    (nb : number_neighbors) (excluded : Z) :
  ∃ next,
    numbered nb (clip env m) excluded next (RegionGroup env m nb excluded) ∧
    ∀ c, is_Some (clip env m !! c) → is_Some (RegionGroup env m nb excluded !! c).
Proof.
  unfold RegionGroup.
  destruct (number_regions_numbered nb (clip env m) excluded
              (scan_order (dom (clip env m))) 1 ∅ (numbered_empty _ _ _))
    as (next & Hn & _ & Hcover).
  exists next. split; [done|]. intros c Hc. apply Hcover; [|done].
  by apply elem_of_scan_order, elem_of_dom.
Qed.

Lemma RegionGroup_dom (env : environment) (m : gmap cell Z)
    (nb : number_neighbors) (excluded : Z) :
  dom (RegionGroup env m nb excluded) = dom (clip env m).
Proof.
  destruct (RegionGroup_numbered env m nb excluded) as (next & (_ & H1 & _) & Hcover).
  apply set_eq. intros c. rewrite !elem_of_dom. split; [|apply Hcover].
  intros [z (v & Hv & _)%H1]. eauto.
Qed.

Lemma RegionGroup_in_env (env : environment) (m : gmap cell Z)
    (nb : number_neighbors) (excluded : Z) :
  dom (RegionGroup env m nb excluded) ⊆ env.
Proof. rewrite RegionGroup_dom. apply tabulate_dom_subseteq. Qed.

Lemma RegionGroup_excluded (env : environment) (m : gmap cell Z)
    (nb : number_neighbors) (excluded : Z) (c : cell) :
  RegionGroup env m nb excluded !! c = Some 0 ↔ clip env m !! c = Some excluded.
Proof.
  destruct (RegionGroup_numbered env m nb excluded) as (next & (_ & H1 & _) & Hcover).
  split.
  - intros (v & Hv & [[-> _]|[_ ?]])%H1; [done|lia].
  - intros Hc. destruct (Hcover c) as [z Hz]; [eauto|].
    destruct (H1 _ _ Hz) as (v & Hv & [[_ ->]|[? _]]); [done|congruence].
Qed.

Lemma RegionGroup_region (env : environment) (m : gmap cell Z)
    (nb : number_neighbors) (excluded : Z) (c : cell) (v : Z) :
  clip env m !! c = Some v → v ≠ excluded →
  ∃ z, 1 ≤ z ∧ RegionGroup env m nb excluded !! c = Some z ∧
       ∀ c', RegionGroup env m nb excluded !! c' = Some z ↔
             connected nb (clip env m) c c'.
Proof.
  intros Hc Hv.
  destruct (RegionGroup_numbered env m nb excluded)
    as (next & (_ & H1 & H2 & H3) & Hcover).
  destruct (Hcover c) as [z Hz]; [eauto|].
  destruct (H1 _ _ Hz) as (u & Hu & [[? _]|[_ ?]]); [congruence|].
  exists z. split; [lia|]. split; [done|]. intros c'. split.
  - intros Hz'. apply (H3 c c' z); [done|done|lia].
  - apply H2; [done|lia].
Qed.

(** ** The zonal sum over the regions of a mask *)

Lemma sum_constant {A : Type} (f : A → option Z) (v : Z) (l : list A) :
  (∀ x, x ∈ l → f x = Some v) →
  length (omap f l) = length l ∧
  foldr Z.add 0 (omap f l) = v * Z.of_nat (length l).
Proof.
  induction l as [|x l IH]; intros H.
  - split; [done|simpl; lia].
  - assert (omap f (x :: l) = v :: omap f l) as ->.
    { cbn. by rewrite (H x) by apply list_elem_of_here. }
    destruct IH as [IH1 IH2].
    { intros y Hy. apply H. by apply list_elem_of_further. }
    split; [cbn; by rewrite IH1|].
    change (v + foldr Z.add 0 (omap f l) = v * Z.of_nat (S (length l))).
    rewrite IH2. lia.
Qed.

Lemma zone_sum_constant (zones values : gmap cell Z) (z v : Z) (c : cell) :
  c ∈ zone_cells zones z →
  (∀ x, x ∈ zone_cells zones z → values !! x = Some v) →
  zone_sum zones values z = Some (v * Z.of_nat (size (zone_cells zones z))).
Proof.
  intros Hc Hall. unfold zone_sum, zone_values.
  destruct (sum_constant (λ x, values !! x) v (elements (zone_cells zones z)))
    as [Hlen Hsum].
  { intros x Hx. apply Hall. by apply elem_of_elements. }
  destruct (omap _ _) as [|a vs] eqn:E.
  - exfalso. apply elem_of_elements in Hc.
    destruct (elements (zone_cells zones z)); [by apply elem_of_nil in Hc|done].
  - by rewrite Hsum.
Qed.

Lemma zone_cells_region (env : environment) (m : gmap cell Z) (c : cell) (v z : Z) :
  clip env m !! c = Some v → v ≠ 0 →
  RegionGroup env m EIGHT 0 !! c = Some z →
  zone_cells (RegionGroup env m EIGHT 0) z = region EIGHT (clip env m) c.
Proof.
  intros Hc Hv Hz.
  destruct (RegionGroup_region env m EIGHT 0 c v Hc Hv) as (z' & _ & Hz' & Hconn).
  assert (z' = z) as -> by congruence.
  apply set_eq. intros x. unfold zone_cells.
  rewrite elem_of_filter, elem_of_dom, elem_of_region, Hconn.
  split.
  - intros [Hx _]. eauto.
  - intros [_ Hx]. split; [done|]. apply Hconn in Hx. eauto.
Qed.

Lemma zone_cells_excluded (env : environment) (m : gmap cell Z) (x : cell) :
  x ∈ zone_cells (RegionGroup env m EIGHT 0) 0 ↔ clip env m !! x = Some 0.
Proof.
  unfold zone_cells. rewrite elem_of_filter, elem_of_dom, RegionGroup_excluded.
  split; [by intros [? _]|]. intros Hx. split; [done|].
  exists 0. by apply RegionGroup_excluded.
Qed.

(** The zonal sum of a mask over its own regions: at every cell the value
    of the cell times the number of cells of its region. *)
Lemma lookup_zonal_sum_of_regions (env : environment) (m : gmap cell Z) (c : cell) :
  ZonalStatistics_SUM env (RegionGroup env m EIGHT 0) m !! c =
    (λ v, v * Z.of_nat (size (region EIGHT (clip env m) c))) <$> clip env m !! c.
Proof.
  unfold ZonalStatistics_SUM. rewrite lookup_tabulate.
  rewrite (clip_id env (RegionGroup env m EIGHT 0)) by apply RegionGroup_in_env.
  case_decide as Hc.
  - destruct (clip env m !! c) as [v|] eqn:Hv; simpl.
    + destruct (decide (v = 0)) as [->|Hv0].
      * rewrite (proj2 (RegionGroup_excluded env m EIGHT 0 c) Hv). simpl.
        rewrite (zone_sum_constant _ _ 0 0 c).
        -- by rewrite !Z.mul_0_l.
        -- by apply zone_cells_excluded.
        -- intros x Hx. by apply zone_cells_excluded.
      * destruct (RegionGroup_region env m EIGHT 0 c v Hv Hv0) as (z & _ & Hz & Hconn).
        rewrite Hz. simpl.
        rewrite (zone_sum_constant _ _ z v c).
        -- by rewrite (zone_cells_region env m c v z).
        -- rewrite (zone_cells_region env m c v z) by done.
           apply elem_of_region. split; [eauto|apply connected_refl].
        -- rewrite (zone_cells_region env m c v z) by done.
           intros x [_ Hx]%elem_of_region.
           by rewrite (connected_value EIGHT (clip env m) c x).
    + assert (RegionGroup env m EIGHT 0 !! c = None) as ->; [|done].
      apply not_elem_of_dom. rewrite RegionGroup_dom. by apply not_elem_of_dom.
  - rewrite clip_lookup. by rewrite decide_False.
Qed.

(** The size filter, cell by cell. *)
Lemma lookup_size_filter (env : environment) (m : gmap cell Z) (c : cell) :
  size_filter env m !! c =
    match clip env m !! c with
    | Some v =>
        if decide (5 < v * Z.of_nat (size (region EIGHT (clip env m) c)))
        then Some 1 else None
    | None => None
    end.
Proof.
  unfold size_filter. destruct (decide (c ∈ env)) as [Hc|Hc].
  - rewrite lookup_Con, lookup_GreaterThan, lookup_zonal_sum_of_regions by done.
    destruct (clip env m !! c) as [v|]; simpl; [|done].
    destruct (Z.ltb_spec 5 (v * Z.of_nat (size (region EIGHT (clip env m) c))));
      simpl.
    + by rewrite decide_True.
    + by rewrite decide_False by lia.
  - unfold Con. rewrite lookup_outside by done.
    rewrite clip_lookup. by rewrite decide_False.
Qed.

(** ** Distance and buffer *)

Lemma min_present_spec (vs : list Z) :
  match min_present vs with
  | Some m => m ∈ vs ∧ ∀ x, x ∈ vs → m ≤ x
  | None => vs = []
  end.
Proof.
  induction vs as [|v vs IH]; [done|].
  change (min_present (v :: vs))
    with (Some (match min_present vs with Some a => Z.min v a | None => v end)).
  destruct (min_present vs) as [a|].
  - destruct IH as [Ha Hle]. split.
    + destruct (Z.min_spec v a) as [[_ ->]|[_ ->]];
        [apply list_elem_of_here|by apply list_elem_of_further].
    + intros x [->|Hx]%elem_of_cons; [lia|]. specialize (Hle x Hx). lia.
  - subst vs. split; [apply list_elem_of_here|].
    intros x [->|Hx]%elem_of_cons; [lia|]. by apply elem_of_nil in Hx.
Qed.

Lemma EucDistance_is_Some (env : environment) (src : gmap cell Z)
    (maximum_distance cell_size : Z) (c : cell) :
  is_Some (EucDistance env src maximum_distance cell_size !! c) ↔
  c ∈ env ∧ 0 ≤ maximum_distance ∧
  ∃ s, is_Some (clip env src !! s) ∧
       cell_size * cell_size * sq_cells c s ≤ maximum_distance * maximum_distance.
Proof.
  unfold EucDistance. rewrite lookup_tabulate.
  set (ds := (λ s, cell_size * cell_size * sq_cells c s) <$> _).
  pose proof (min_present_spec ds) as Hmin.
  case_decide as Hc; [|split; [by intros [? ?]|by intros [? _]]].
  destruct (min_present ds) as [d|]; simpl.
  - destruct Hmin as [Hd Hle]. case_decide as Hin.
    + split; [intros _|eauto]. split; [done|]. split; [lia|].
      apply list_elem_of_fmap in Hd as (s & -> & Hs).
      exists s. split; [|lia]. by apply elem_of_dom, elem_of_elements.
    + split; [by intros [? ?]|]. intros (_ & Hr & s & Hs & Hds).
      exfalso. apply Hin. split; [done|].
      etrans; [apply (Hle (cell_size * cell_size * sq_cells c s))|done].
      apply list_elem_of_fmap. exists s. split; [done|].
      by apply elem_of_elements, elem_of_dom.
  - split; [by intros [? ?]|]. intros (_ & _ & s & Hs & _). exfalso.
    apply elem_of_dom, elem_of_elements in Hs.
    assert (cell_size * cell_size * sq_cells c s ∈ ds) as Hin.
    { apply list_elem_of_fmap. eauto. }
    rewrite Hmin in Hin. by apply elem_of_nil in Hin.
Qed.

Lemma lookup_buffer_inside (env : environment) (src : gmap cell Z) (radius : Z) (c : cell) :
  c ∈ env →
  buffer env src radius !! c =
    Some (match EucDistance env src radius 30 !! c with Some _ => 1 | None => 0 end).
Proof.
  intros Hc. unfold buffer. rewrite lookup_Con, lookup_IsNull by done. simpl.
  by destruct (EucDistance env src radius 30 !! c).
Qed.

Lemma buffer_true (env : environment) (src : gmap cell Z) (radius : Z) (c : cell) :
  buffer env src radius !! c = Some 1 ↔
  c ∈ env ∧ 0 ≤ radius ∧
  ∃ s, is_Some (clip env src !! s) ∧ 30 * 30 * sq_cells c s ≤ radius * radius.
Proof.
  rewrite <- EucDistance_is_Some. destruct (decide (c ∈ env)) as [Hc|Hc].
  - rewrite lookup_buffer_inside by done.
    destruct (EucDistance env src radius 30 !! c); split; try done; eauto.
  - unfold buffer, Con, EucDistance. rewrite !lookup_outside by done.
    split; [done|]. by intros [? ?].
Qed.

Lemma buffer_values (env : environment) (src : gmap cell Z) (radius : Z) (c : cell) :
  buffer env src radius !! c =
    if decide (c ∈ env)
    then Some (if decide (buffer env src radius !! c = Some 1) then 1 else 0)
    else None.
Proof.
  case_decide as Hc.
  - rewrite lookup_buffer_inside by done.
    destruct (EucDistance env src radius 30 !! c); by case_decide.
  - unfold buffer, Con. by rewrite lookup_outside.
Qed.

(** C7.  The buffer (lines 130-134 and 152-156: distance up to a radius,
    then 1 where the distance is defined) grows with its radius: whatever
    the source raster, a cell that is marked with the smaller radius is
    marked with the larger one. *)
Theorem buffer_monotone_in_radius
    (env : environment) (mask : gmap cell Z) (r1 r2 : Z) (c : cell) :
  r1 ≤ r2 →
  buffer env mask r1 !! c = Some 1 → buffer env mask r2 !! c = Some 1.
Proof.
  intros Hr. rewrite !buffer_true. intros (Hc & H0 & s & Hs & Hd).
  split; [done|]. split; [lia|]. exists s. split; [done|]. nia.
Qed.

Lemma buffer_monotone_in_radius_witness :
  90 ≤ 120 ∧
  buffer {[ (0, 0); (0, 3); (0, 4) ]} {[ (0, 0) := 1 ]} 90 !! (0, 3) = Some 1 ∧
  buffer {[ (0, 0); (0, 3); (0, 4) ]} {[ (0, 0) := 1 ]} 120 !! (0, 3) = Some 1.
Proof.
  assert (H : buffer {[ (0, 0); (0, 3); (0, 4) ]} {[ (0, 0) := 1 ]} 90 !! (0, 3) = Some 1)
    by (vm_compute; reflexivity).
  split; [lia|]. split; [exact H|].
  apply (buffer_monotone_in_radius _ _ 90 120 (0, 3)); [lia|exact H].
Defined.

(** ** The size filter keeps whole groups *)

Lemma clip_boolean (env : environment) (m : gmap cell Z) :
  boolean_mask m → boolean_mask (clip env m).
Proof.
  intros Hb c v. rewrite clip_lookup. case_decide; [apply Hb|done].
Qed.

Lemma size_filter_dom (env : environment) (m : gmap cell Z) :
  dom (size_filter env m) ⊆ env.
Proof. apply tabulate_dom_subseteq. Qed.

Lemma size_filter_one (env : environment) (m : gmap cell Z) (c : cell) (v : Z) :
  size_filter env m !! c = Some v → v = 1.
Proof.
  rewrite lookup_size_filter. destruct (clip env m !! c); [|done].
  case_decide; congruence.
Qed.

Lemma size_filter_true (env : environment) (m : gmap cell Z) (c : cell) :
  boolean_mask m →
  size_filter env m !! c = Some 1 ↔
  clip env m !! c = Some 1 ∧ (5 < size (region EIGHT (clip env m) c))%nat.
Proof.
  intros Hb. rewrite lookup_size_filter.
  destruct (clip env m !! c) as [v|] eqn:Hv; [|by split; [|intros [? _]]].
  destruct (clip_boolean env m Hb c v Hv) as [-> | ->].
  - rewrite decide_False by lia. by split; [|intros [? _]].
  - case_decide; split; try done; [intros _; split; [done|lia]|intros [_ ?]; lia].
Qed.

Lemma region_connected_eq (nb : number_neighbors) (g : gmap cell Z) (a b : cell) :
  connected nb g a b → region nb g b = region nb g a.
Proof.
  intros Hab. apply set_eq. intros x. rewrite !elem_of_region.
  rewrite (connected_value nb g a b Hab). split; intros [Hs Hx]; (split; [done|]).
  - by eapply connected_trans.
  - eapply connected_trans; [by apply connected_sym|done].
Qed.

Lemma region_unique (nb : number_neighbors) (g : gmap cell Z) (c : cell) (G : gset cell) :
  is_Some (g !! c) →
  (∀ x, x ∈ G ↔ connected nb g c x) → G = region nb g c.
Proof.
  intros Hc HG. apply set_eq. intros x. rewrite elem_of_region, HG. tauto.
Qed.

Lemma size_filter_connected (env : environment) (m : gmap cell Z) (a b : cell) :
  boolean_mask m →
  size_filter env m !! a = Some 1 → connected EIGHT (clip env m) a b →
  size_filter env m !! b = Some 1.
Proof.
  intros Hb. rewrite !size_filter_true by done. intros [Ha Hsize] Hab.
  rewrite (connected_value _ _ a b Hab), (region_connected_eq _ _ a b Hab). done.
Qed.

Lemma connected_size_filter (env : environment) (m : gmap cell Z) (a b : cell) :
  boolean_mask m →
  size_filter env m !! a = Some 1 →
  connected EIGHT (size_filter env m) a b ↔ connected EIGHT (clip env m) a b.
Proof.
  intros Hb Ha. split.
  - clear Ha. induction 1 as [|x y z [Hn (v & Hx & Hy)] _ IH]; [apply rtc_refl|].
    eapply rtc_l; [|exact IH]. split; [done|].
    apply size_filter_one in Hx as Hv. subst v.
    apply size_filter_true in Hx as [Hx _]; [|done].
    apply size_filter_true in Hy as [Hy _]; [|done]. eauto.
  - revert b. apply rtc_ind_r; [apply rtc_refl|].
    intros y z Hay Hyz IH. eapply rtc_r; [exact IH|].
    split; [apply Hyz|]. exists 1. split.
    + by eapply size_filter_connected.
    + eapply size_filter_connected; [done..|]. eapply rtc_r; eauto.
Qed.

(** C3.  The size filter (lines 121-128 and 143-150: region group, zonal
    sum, test [> 5]) of a boolean mask marks a cell exactly when the cell is
    true and its group of 8-connected true cells has more than 5 cells; it
    marks nothing else with any value, so a group of 5 cells or fewer is
    not marked; and filtering the result a second time leaves it as it is. *)
Theorem size_filter_keeps_groups_above_5 (env : environment) (mask : gmap cell Z) :
  boolean_mask mask →
  (∀ c, size_filter env mask !! c = Some 1 ↔
        clip env mask !! c = Some 1 ∧
        ∃ G : gset cell,
          (∀ x, x ∈ G ↔ connected EIGHT (clip env mask) c x) ∧ (5 < size G)%nat) ∧
  (∀ c v, size_filter env mask !! c = Some v → v = 1) ∧
  size_filter env (size_filter env mask) = size_filter env mask.
Proof.
  intros Hb. split; [|split].
  - intros c. rewrite size_filter_true by done. split.
    + intros [Hc Hsize]. split; [done|].
      exists (region EIGHT (clip env mask) c). split; [|done].
      intros x. rewrite elem_of_region, Hc. split; [tauto|eauto].
    + intros [Hc (G & HG & Hsize)]. split; [done|].
      by rewrite <- (region_unique EIGHT (clip env mask) c G) by eauto.
  - intros c v. apply size_filter_one.
  - apply map_eq. intros c.
    assert (Hb' : boolean_mask (size_filter env mask)).
    { intros x v ->%size_filter_one. by right. }
    destruct (size_filter env mask !! c) as [v|] eqn:Hc.
    + apply size_filter_one in Hc as Hv. subst v.
      apply size_filter_true; [done|].
      rewrite (clip_id env (size_filter env mask)) by apply size_filter_dom.
      split; [done|].
      assert (region EIGHT (size_filter env mask) c =
              region EIGHT (clip env mask) c) as ->.
      { apply region_unique.
        - apply size_filter_true in Hc as [-> _]; eauto.
        - intros x. rewrite elem_of_region, Hc, connected_size_filter by done.
          split; [tauto|eauto]. }
      by apply size_filter_true in Hc as [_ ?].
    + rewrite lookup_size_filter.
      rewrite (clip_id env (size_filter env mask)) by apply size_filter_dom.
      by rewrite Hc.
Qed.

Lemma boolean_mask_Forall (m : gmap cell Z) :
  map_Forall (λ _ v, v = 0 ∨ v = 1) m → boolean_mask m.
Proof. intros H c v Hc. exact (H c v Hc). Qed.

Lemma blob_mask_boolean : boolean_mask blob_mask.
Proof.
  apply boolean_mask_Forall.
  apply (bool_decide_unpack _). vm_compute. exact I.
Defined.

Lemma size_filter_keeps_groups_above_5_witness :
  boolean_mask blob_mask ∧
  size_filter (rectangle 5 5) (size_filter (rectangle 5 5) blob_mask) =
  size_filter (rectangle 5 5) blob_mask.
Proof.
  split; [exact blob_mask_boolean|].
  apply (size_filter_keeps_groups_above_5 (rectangle 5 5) blob_mask).
  exact blob_mask_boolean.
Defined.

(** The scenario of a group of six cells: the filter marks those six cells
    and nothing else. *)
Example size_filter_blob :
  size_filter (rectangle 5 5) blob_mask =
  list_to_map [((0, 0), 1); ((0, 1), 1); ((1, 1), 1); ((2, 2), 1);
               ((2, 3), 1); ((3, 3), 1)].
Proof. vm_compute. reflexivity. Qed.

(** ** The table of group sizes *)

Lemma zone_cells_insert (m : gmap cell Z) (i : cell) (x z : Z) :
  m !! i = None →
  zone_cells (<[i := x]> m) z =
    if decide (x = z) then {[i]} ∪ zone_cells m z else zone_cells m z.
Proof.
  intros Hi. apply set_eq. intros c. unfold zone_cells.
  assert (c ∈ filter (λ c0, <[i := x]> m !! c0 = Some z) (dom (<[i := x]> m)) ↔
          (c = i ∧ x = z) ∨ (c ≠ i ∧ m !! c = Some z)) as ->.
  { rewrite elem_of_filter, elem_of_dom, lookup_insert.
    case_decide as Hci; [subst c|].
    - split; [intros [[= ->] _]; by left|].
      intros [[_ ->]|[? _]]; [eauto|done].
    - split; [intros [? _]; by right|]. intros [[? _]|[_ ?]]; [done|eauto]. }
  case_decide as Hx.
  - rewrite elem_of_union, elem_of_singleton, elem_of_filter, elem_of_dom.
    split.
    + intros [[? _]|[_ ?]]; [by left|right; eauto].
    + intros [->|[Hc _]]; [by left|]. right. split; [|done]. intros ->. congruence.
  - rewrite elem_of_filter, elem_of_dom. split.
    + intros [[_ ?]|[_ ?]]; [done|eauto].
    + intros [Hc _]. right. split; [|done]. intros ->. congruence.
Qed.

Lemma zone_cells_not_elem (m : gmap cell Z) (i : cell) (z : Z) :
  m !! i = None → i ∉ zone_cells m z.
Proof.
  intros Hi. unfold zone_cells. rewrite elem_of_filter. intros [? _]. congruence.
Qed.

Lemma lookup_GroupSizeTable (labels : gmap cell Z) (z : Z) :
  GroupSizeTable labels !! z =
    if decide (0 < z ∧ zone_cells labels z ≠ ∅)
    then Some (size (zone_cells labels z)) else None.
Proof.
  revert z. unfold GroupSizeTable.
  refine (map_fold_weak_ind
            (λ (table : gmap Z nat) (m : gmap cell Z), ∀ z, table !! z =
               if decide (0 < z ∧ zone_cells m z ≠ ∅)
               then Some (size (zone_cells m z)) else None)
            _ ∅ _ _ labels).
  - intros z. rewrite lookup_empty. case_decide as H; [|done].
    destruct H as [_ H]. exfalso. apply H. apply set_eq. intros c.
    unfold zone_cells. rewrite elem_of_filter, dom_empty_L. set_solver.
  - intros i x m table Hi IH z. rewrite zone_cells_insert by done.
    pose proof (zone_cells_not_elem m i z Hi) as Hni.
    destruct (decide (0 < x)) as [Hx|Hx]; destruct (decide (x = z)) as [->|Hxz].
    + rewrite lookup_insert_eq.
      rewrite decide_True by (split; [done|set_solver]).
      f_equal. rewrite size_union by (apply disjoint_singleton_l; exact Hni).
      rewrite size_singleton, IH. case_decide as Hne; [done|]. simpl.
      assert (zone_cells m z = ∅) as ->; [|by rewrite size_empty].
      destruct (decide (zone_cells m z = ∅)); [done|]. exfalso. by apply Hne.
    + rewrite lookup_insert_ne by done. apply IH.
    + rewrite IH. rewrite decide_False by (intros [? _]; lia).
      by rewrite decide_False by (intros [? _]; lia).
    + apply IH.
Qed.

Lemma lookup_sizeFilter_direct (env : environment) (mask : gmap cell Z)
    (minSize : nat) (c : cell) :
  boolean_mask mask →
  sizeFilter_direct env mask minSize !! c =
    match clip env mask !! c with
    | Some v =>
        Some (if decide (v = 1 ∧ (minSize < size (region EIGHT (clip env mask) c))%nat)
              then 1 else 0)
    | None => None
    end.
Proof.
  intros Hb. unfold sizeFilter_direct, label. rewrite lookup_tabulate, clip_lookup.
  case_decide as Hc; [|done].
  destruct (mask !! c) as [v|] eqn:Hv.
  - assert (Hclip : clip env mask !! c = Some v).
    { rewrite clip_lookup. by rewrite decide_True. }
    destruct (Hb c v Hv) as [-> | ->].
    + rewrite (proj2 (RegionGroup_excluded env mask EIGHT 0 c) Hclip). simpl.
      rewrite lookup_GroupSizeTable. rewrite decide_False by (intros [? _]; lia).
      done.
    + destruct (RegionGroup_region env mask EIGHT 0 c 1 Hclip) as (z & Hz1 & Hz & _);
        [done|].
      rewrite Hz. simpl. rewrite lookup_GroupSizeTable.
      rewrite (zone_cells_region env mask c 1 z) by done.
      rewrite decide_True.
      * f_equal. case_bool_decide; case_decide; try done; [exfalso; tauto|lia].
      * split; [lia|]. intros He.
        assert (c ∈ region EIGHT (clip env mask) c) as Hin.
        { apply elem_of_region. split; [eauto|apply connected_refl]. }
        rewrite He in Hin. set_solver.
  - assert (RegionGroup env mask EIGHT 0 !! c = None) as ->; [|done].
    apply not_elem_of_dom. rewrite RegionGroup_dom. apply not_elem_of_dom.
    rewrite clip_lookup. by rewrite decide_True.
Qed.

(** C8.  For a boolean mask, the construction of the script (zonal sum of
    the mask over its own region groups, then test [> 5]) and the direct
    filter (table of the cell counts of the groups, then test [> 5]) mark
    exactly the same cells. *)
Theorem zonal_sum_threshold_is_group_size_filter
    (env : environment) (mask : gmap cell Z) (c : cell) :
  boolean_mask mask →
  size_filter env mask !! c = Some 1 ↔ sizeFilter_direct env mask 5 !! c = Some 1.
Proof.
  intros Hb. rewrite size_filter_true, lookup_sizeFilter_direct by done.
  destruct (clip env mask !! c) as [v|]; [|by split; [intros [? _]|]].
  case_decide as H; split.
  - done.
  - intros _. destruct H as [-> ?]. done.
  - intros [[= ->] ?]. exfalso. by apply H.
  - done.
Qed.

Lemma zonal_sum_threshold_is_group_size_filter_witness :
  boolean_mask blob_mask ∧
  (size_filter (rectangle 5 5) blob_mask !! (2, 2) = Some 1 ↔
   sizeFilter_direct (rectangle 5 5) blob_mask 5 !! (2, 2) = Some 1).
Proof.
  split; [exact blob_mask_boolean|].
  apply (zonal_sum_threshold_is_group_size_filter (rectangle 5 5) blob_mask (2, 2)).
  exact blob_mask_boolean.
Defined.

(** The two constructions differ off the marked cells: the script leaves
    NoData where the direct filter says false. *)
Example direct_filter_blob :
  sizeFilter_direct (rectangle 5 5) blob_mask 5 =
  list_to_map [((0, 0), 1); ((0, 1), 1); ((1, 1), 1); ((2, 2), 1);
               ((2, 3), 1); ((3, 3), 1); ((4, 0), 0); ((0, 4), 0)].
Proof. vm_compute. reflexivity. Qed.

(** ** Rejected cells are NoData, and NoData is not a source *)

(** C10.  The test [Con(... > 5, 1)] of the size filter has no false value:
    the result is 1 or NoData, never 0.  A false cell of a boolean mask and
    a true cell whose group has 5 cells or fewer come out as NoData.  The
    buffer that follows takes as sources exactly the cells the filter kept,
    because a NoData cell is not a source, while a cell that held 0 would be
    one: any raster with a 0 at a cell has that cell in its buffer. *)
Theorem size_filter_rejects_with_NoData (env : environment) (mask : gmap cell Z) :
  boolean_mask mask →
  (∀ c, size_filter env mask !! c = None ∨ size_filter env mask !! c = Some 1) ∧
  (∀ c, clip env mask !! c = Some 0 → size_filter env mask !! c = None) ∧
  (∀ c (G : gset cell),
     clip env mask !! c = Some 1 →
     (∀ x, x ∈ G ↔ connected EIGHT (clip env mask) c x) →
     (size G ≤ 5)%nat →
     size_filter env mask !! c = None) ∧
  (∀ radius c,
     buffer env (size_filter env mask) radius !! c = Some 1 ↔
     c ∈ env ∧ 0 ≤ radius ∧
     ∃ s, size_filter env mask !! s = Some 1 ∧
          30 * 30 * sq_cells c s ≤ radius * radius) ∧
  (∀ (f : gmap cell Z) radius s,
     s ∈ env → 0 ≤ radius → f !! s = Some 0 →
     buffer env f radius !! s = Some 1).
Proof.
  intros Hb. split; [|split; [|split; [|split]]].
  - intros c. destruct (size_filter env mask !! c) as [v|] eqn:Hc; [|by left].
    right. by apply size_filter_one in Hc as ->.
  - intros c Hc. rewrite lookup_size_filter, Hc. by rewrite decide_False by lia.
  - intros c G Hc HG Hsize. rewrite lookup_size_filter, Hc.
    rewrite <- (region_unique EIGHT (clip env mask) c G) by eauto.
    by rewrite decide_False by lia.
  - intros radius c. rewrite buffer_true.
    rewrite (clip_id env (size_filter env mask)) by apply size_filter_dom.
    split; intros (Hc & Hr & s & Hs & Hd); (split; [done|]); (split; [done|]);
      exists s; (split; [|done]).
    + destruct Hs as [v Hs]. by apply size_filter_one in Hs as Hv; subst v.
    + eauto.
  - intros f radius s Hs Hr Hf. apply buffer_true. split; [done|]. split; [done|].
    exists s. split.
    + rewrite clip_lookup, decide_True, Hf by done. eauto.
    + unfold sq_cells. nia.
Qed.

Lemma size_filter_rejects_with_NoData_witness :
  boolean_mask blob_mask ∧
  size_filter (rectangle 5 5) blob_mask !! (0, 4) = None.
Proof.
  split; [exact blob_mask_boolean|].
  apply (proj1 (proj2 (size_filter_rejects_with_NoData
                         (rectangle 5 5) blob_mask blob_mask_boolean)) (0, 4)).
  vm_compute. reflexivity.
Defined.

(** ** Paths *)

Lemma string_app_assoc (a b c : string) : (a +:+ b) +:+ c = a +:+ (b +:+ c).
Proof.
  induction a as [|x a IH]; [done|].
  change (String x ((a +:+ b) +:+ c) = String x (a +:+ (b +:+ c))). by rewrite IH.
Qed.

Lemma last_char_app (s t : string) :
  last_char (s +:+ t) =
    match last_char t with Some b => Some b | None => last_char s end.
Proof.
  induction s as [|a s IH].
  - change ("" +:+ t) with t. by destruct (last_char t).
  - change (String a s +:+ t) with (String a (s +:+ t)). cbn. rewrite IH.
    by destruct (last_char t), (last_char s).
Qed.

(** Two datasets of one directory differ by their names. *)
Ltac same_dir_ne :=
  let H := fresh in
  intros H; apply (inj (String.app _)) in H; discriminate H.

(** The inputs end in a letter, the scratch datasets in a digit. *)
Ltac last_char_ne :=
  let H := fresh in
  intros H; apply (f_equal last_char) in H;
  unfold bnd_path, density_path, nlcd_path in H;
  repeat first [rewrite last_char_app in H | progress cbn in H];
  discriminate H.

(** The final mask is not in the scratch directory. *)
Ltac avoid_ne :=
  let H := fresh in
  unfold scratch_dir, avoid_path, workspace_dir;
  rewrite ?string_app_assoc; intros H;
  apply (inj (String.app _)) in H; apply (inj (String.app _)) in H;
  discriminate H.

Ltac path_ne := first [same_dir_ne | last_char_ne | avoid_ne].

Ltac lookup_path :=
  repeat (rewrite lookup_insert_ne by path_ne);
  first [apply lookup_insert_eq | eassumption].

(** ** Running the statements of the script *)

Section Statements.
Context {A : Type} (k : unit → script A).
Context (ds : gmap string (gmap cell Z)) (ext msk snap ws : string)
        (out : list string).

Lemma run_set_extent (path : string) :
  (set_extent path ≫= k) (World ds ext msk snap ws out) =
  k () (World ds path msk snap ws out).
Proof. reflexivity. Qed.

Lemma run_set_mask (path : string) :
  (set_mask path ≫= k) (World ds ext msk snap ws out) =
  k () (World ds ext path snap ws out).
Proof. reflexivity. Qed.

Lemma run_set_snapRaster (path : string) :
  (set_snapRaster path ≫= k) (World ds ext msk snap ws out) =
  k () (World ds ext msk path ws out).
Proof. reflexivity. Qed.

Lemma run_set_workspace (path : string) :
  (set_workspace path ≫= k) (World ds ext msk snap ws out) =
  k () (World ds ext msk snap path out).
Proof. reflexivity. Qed.

Lemma run_tool1 (f : environment → gmap cell Z → gmap cell Z)
    (path target : string) (a e m : gmap cell Z) :
  ds !! path = Some a → ds !! ext = Some e → ds !! msk = Some m →
  (tool1 f path ≫= λ t, save target t ≫= k) (World ds ext msk snap ws out) =
  k () (World (<[target := f (dom e ∩ dom m) a]> ds) ext msk snap ws out).
Proof.
  intros Ha He Hm.
  unfold mbind, script_bind, tool1, mbind, script_bind, Raster,
    analysis_environment, mret, script_ret, save. simpl.
  rewrite Ha. simpl. by rewrite He, Hm.
Qed.

Lemma run_tool2 (f : environment → gmap cell Z → gmap cell Z → gmap cell Z)
    (path1 path2 target : string) (a b e m : gmap cell Z) :
  ds !! path1 = Some a → ds !! path2 = Some b →
  ds !! ext = Some e → ds !! msk = Some m →
  (tool2 f path1 path2 ≫= λ t, save target t ≫= k) (World ds ext msk snap ws out) =
  k () (World (<[target := f (dom e ∩ dom m) a b]> ds) ext msk snap ws out).
Proof.
  intros Ha Hb He Hm.
  unfold mbind, script_bind, tool2, mbind, script_bind, Raster,
    analysis_environment, mret, script_ret, save. simpl.
  rewrite Ha. simpl. rewrite Hb. simpl. by rewrite He, Hm.
Qed.
End Statements.

Lemma run_raised {A B : Type} (m : script A) (k : A → script B) (w w' : world) :
  m w = (Raised, w') → (m ≫= k) w = (Raised, w').
Proof. intros H. unfold mbind, script_bind. by rewrite H. Qed.

Section Reads.
Context {A : Type}.
Context (ds : gmap string (gmap cell Z)) (ext msk snap ws : string)
        (out : list string).

Lemma run_Raster (k : gmap cell Z → script A) (path : string) (a : gmap cell Z) :
  ds !! path = Some a →
  (Raster path ≫= k) (World ds ext msk snap ws out) =
  k a (World ds ext msk snap ws out).
Proof. intros H. unfold mbind, script_bind, Raster. simpl. by rewrite H. Qed.

Lemma run_analysis_environment (k : environment → script A) (e m : gmap cell Z) :
  ds !! ext = Some e → ds !! msk = Some m →
  (analysis_environment ≫= k) (World ds ext msk snap ws out) =
  k (dom e ∩ dom m) (World ds ext msk snap ws out).
Proof.
  intros He Hm. unfold mbind, script_bind, analysis_environment. simpl.
  by rewrite He, Hm.
Qed.

Lemma tool1_raised (f : environment → gmap cell Z → gmap cell Z) (path : string) :
  ds !! path = None →
  tool1 f path (World ds ext msk snap ws out) =
  (Raised, World ds ext msk snap ws out).
Proof.
  intros H. unfold tool1, mbind, script_bind, Raster. simpl. by rewrite H.
Qed.

Lemma tool2_raised (f : environment → gmap cell Z → gmap cell Z → gmap cell Z)
    (path1 path2 : string) :
  ds !! path1 = None ∨ ds !! msk = None →
  tool2 f path1 path2 (World ds ext msk snap ws out) =
  (Raised, World ds ext msk snap ws out).
Proof.
  intros H.
  unfold tool2, mbind, script_bind, Raster, analysis_environment. simpl.
  destruct (ds !! path1); [|done]. simpl.
  destruct (ds !! path2); [|done]. simpl.
  destruct H as [H|H]; [done|]. rewrite H.
  by destruct (ds !! ext).
Qed.
End Reads.

(** ** The body of the loop, run on a world *)

Ltac unfold_rasters :=
  unfold region_datasets, scratch_datasets, urban_datasets, avdMask,
    tmp3_avd02, tmp3_avd01, tmp2_avd02, tmp2_avd01, tmp1_avd02, tmp1_avd01,
    tmp3_rdd01, tmp2_rdd01, tmp1_rdd01,
    tmp2_urb06, tmp2_urb05, tmp2_urb04, tmp2_urb03, tmp2_urb02, tmp2_urb01,
    tmp1_urb06, tmp1_urb05, tmp1_urb04, tmp1_urb03, tmp1_urb02, tmp1_urb01.

Ltac run_tool :=
  first [erewrite run_tool2 by lookup_path | erewrite run_tool1 by lookup_path].

(** With the three inputs of the region present the body returns, and the
    datasets it leaves are the rasters of the region. *)
Lemma region_body_returns (region : string) (w : world) (b n d : gmap cell Z) :
  datasets w !! bnd_path region = Some b →
  datasets w !! nlcd_path = Some n →
  datasets w !! density_path region = Some d →
  region_body region w =
    (Returned (),
     World (region_datasets region (dom b ∩ dom b) n d (datasets w))
           (bnd_path region) (bnd_path region)
           "P:\Proj3\USGap\Ancillary\snapnlcd_2016"
           (workspace_dir region) (stdout w)).
Proof.
  intros Hb Hn Hd. destruct w as [ds ext msk snap ws out]. simpl in *.
  unfold region_body. cbv zeta.
  rewrite run_set_extent, run_set_mask, run_set_snapRaster, run_set_workspace.
  do 21 run_tool.
  erewrite !run_Raster by lookup_path.
  erewrite run_analysis_environment by lookup_path.
  unfold_rasters. reflexivity.
Qed.

(** Without the density raster the body raises after the urban part: the
    twelve urban rasters are in the scratch directory, nothing else is
    written. *)
Lemma region_body_raises_at_density (region : string) (w : world) (b n : gmap cell Z) :
  datasets w !! bnd_path region = Some b →
  datasets w !! nlcd_path = Some n →
  datasets w !! density_path region = None →
  region_body region w =
    (Raised,
     World (urban_datasets region (dom b ∩ dom b) n (datasets w))
           (bnd_path region) (bnd_path region)
           "P:\Proj3\USGap\Ancillary\snapnlcd_2016"
           (workspace_dir region) (stdout w)).
Proof.
  intros Hb Hn Hd. destruct w as [ds ext msk snap ws out]. simpl in *.
  unfold region_body. cbv zeta.
  rewrite run_set_extent, run_set_mask, run_set_snapRaster, run_set_workspace.
  do 12 run_tool.
  unfold_rasters. apply run_raised, tool1_raised.
  repeat (rewrite lookup_insert_ne by path_ne). exact Hd.
Qed.

(** Without the boundary raster or the land cover the body raises at its
    first tool and writes nothing. *)
Lemma region_body_raises_at_start (region : string) (w : world) :
  datasets w !! bnd_path region = None ∨ datasets w !! nlcd_path = None →
  region_body region w =
    (Raised,
     World (datasets w) (bnd_path region) (bnd_path region)
           "P:\Proj3\USGap\Ancillary\snapnlcd_2016"
           (workspace_dir region) (stdout w)).
Proof.
  intros H. destruct w as [ds ext msk snap ws out]. simpl in *.
  unfold region_body. cbv zeta.
  rewrite run_set_extent, run_set_mask, run_set_snapRaster, run_set_workspace.
  apply run_raised, tool2_raised. tauto.
Qed.

(** The body raises exactly when one of its three inputs is missing. *)
Lemma region_body_raises_iff (region : string) (w : world) :
  (region_body region w).1 = Raised ↔
  datasets w !! bnd_path region = None ∨
  datasets w !! nlcd_path = None ∨
  datasets w !! density_path region = None.
Proof.
  destruct (datasets w !! bnd_path region) as [b|] eqn:Hb;
    [|rewrite region_body_raises_at_start by tauto; simpl; tauto].
  destruct (datasets w !! nlcd_path) as [n|] eqn:Hn;
    [|rewrite region_body_raises_at_start by tauto; simpl; tauto].
  destruct (datasets w !! density_path region) as [d|] eqn:Hd.
  - rewrite (region_body_returns region w b n d) by done. simpl.
    split; [done|]. intros [?|[?|?]]; done.
  - rewrite (region_body_raises_at_density region w b n) by done. simpl. tauto.
Qed.

(** A body that raises has not written the final mask of its region. *)
Lemma region_body_raised_no_mask (region : string) (w : world) :
  (region_body region w).1 = Raised →
  datasets (region_body region w).2 !! avoid_path region =
  datasets w !! avoid_path region.
Proof.
  destruct (datasets w !! bnd_path region) as [b|] eqn:Hb;
    [|by rewrite region_body_raises_at_start by tauto].
  destruct (datasets w !! nlcd_path) as [n|] eqn:Hn;
    [|by rewrite region_body_raises_at_start by tauto].
  destruct (datasets w !! density_path region) as [d|] eqn:Hd.
  - by rewrite (region_body_returns region w b n d) by done.
  - rewrite (region_body_raises_at_density region w b n) by done.
    intros _. simpl. unfold urban_datasets.
    repeat (rewrite lookup_insert_ne by path_ne). done.
Qed.

(** ** The loop over the regions *)

Lemma try_except_print (body : script unit) (line : string) (w : world) :
  try_except body (print line) w =
    match (body w).1 with
    | Returned _ => (Returned (), (body w).2)
    | Raised =>
        (Returned (),
         World (datasets (body w).2) (env_extent (body w).2) (env_mask (body w).2)
               (env_snapRaster (body w).2) (env_workspace (body w).2)
               (stdout (body w).2 ++ [line]))
    end.
Proof. unfold try_except. by destruct (body w) as [[[]|] w']. Qed.

Lemma for_each_try_returns (regions : list string) (body : string → script unit)
    (line : string → string) (w : world) :
  (for_each regions (λ r, try_except (body r) (print (line r))) w).1 = Returned ().
Proof.
  revert w. induction regions as [|r rest IH]; intros w; [done|].
  simpl. unfold mbind, script_bind. rewrite try_except_print.
  destruct ((body r w).1); apply IH.
Qed.

Lemma for_each_try_app (before after : list string) (body : string → script unit)
    (line : string → string) (w : world) :
  for_each (before ++ after) (λ r, try_except (body r) (print (line r))) w =
  for_each after (λ r, try_except (body r) (print (line r)))
    (for_each before (λ r, try_except (body r) (print (line r))) w).2.
Proof.
  revert w. induction before as [|r rest IH]; intros w; [done|].
  simpl. unfold mbind, script_bind. rewrite try_except_print.
  destruct ((body r w).1); apply IH.
Qed.

Lemma for_each_try_step (before after : list string) (r : string)
    (body : string → script unit) (line : string → string) (w : world) :
  for_each (before ++ r :: after) (λ r, try_except (body r) (print (line r))) w =
  for_each after (λ r, try_except (body r) (print (line r)))
    (try_except (body r) (print (line r))
       (for_each before (λ r, try_except (body r) (print (line r))) w).2).2.
Proof.
  rewrite for_each_try_app. simpl. unfold mbind, script_bind.
  rewrite try_except_print. by destruct ((body r _).1).
Qed.

(** C9.  Failures of regions are isolated.  Whatever the list of regions
    and the datasets present, the loop runs to its end and never raises.
    A region is processed in the world its predecessors left, whether they
    failed or not, and the regions after it are processed in the world it
    leaves.  When the body of a region raises (which it does exactly when
    one of its inputs is missing), the stages after the failing one are not
    run, one line naming the region is printed, and the final mask of the
    region is not written; when it returns, nothing is printed and the mask
    is there.  The loop over the HUCs of stage 1 isolates failures in the
    same way, whatever its body does and wherever it raises. *)
Theorem region_failures_are_isolated
    (before after : list string) (region : string) (w : world) :
  let w1 := (main before w).2 in
  let w2 := (try_except (region_body region) (print (region +:+ " failed.")) w1).2 in
  (main (before ++ region :: after) w).1 = Returned () ∧
  main (before ++ region :: after) w = main after w2 ∧
  match (region_body region w1).1 with
  | Raised =>
      stdout w2 = stdout w1 ++ [region +:+ " failed."] ∧
      datasets w2 !! avoid_path region = datasets w1 !! avoid_path region ∧
      (datasets w2 = datasets w1 ∨
       ∃ env nlcd, datasets w2 = urban_datasets region env nlcd (datasets w1))
  | Returned _ =>
      stdout w2 = stdout w1 ∧ is_Some (datasets w2 !! avoid_path region)
  end ∧
  ∀ huc_body : string → script unit,
    let v1 := (huc_loop huc_body before w).2 in
    let v2 := (try_except (huc_body region)
                 (print (region +:+ " " +:+ " failed.")) v1).2 in
    (huc_loop huc_body (before ++ region :: after) w).1 = Returned () ∧
    huc_loop huc_body (before ++ region :: after) w = huc_loop huc_body after v2 ∧
    match (huc_body region v1).1 with
    | Raised => stdout v2 = stdout (huc_body region v1).2
                            ++ [region +:+ " " +:+ " failed."]
    | Returned _ => v2 = (huc_body region v1).2
    end.
Proof.
  intros w1 w2. split; [apply for_each_try_returns|]. split; [|split].
  - unfold main. by rewrite for_each_try_step.
  - subst w2. rewrite try_except_print.
    destruct ((region_body region w1).1) as [[]|] eqn:Hr; cbn [fst snd].
    + assert (Hin : ¬ (region_body region w1).1 = Raised) by (rewrite Hr; done).
      rewrite region_body_raises_iff in Hin.
      destruct (datasets w1 !! bnd_path region) as [b|] eqn:Hb; [|tauto].
      destruct (datasets w1 !! nlcd_path) as [n|] eqn:Hn; [|tauto].
      destruct (datasets w1 !! density_path region) as [d|] eqn:Hd; [|tauto].
      rewrite (region_body_returns region w1 b n d) by done.
      cbn [fst snd datasets stdout].
      split; [done|]. unfold region_datasets. rewrite lookup_insert_eq. eauto.
    + cbn [datasets stdout]. split; [|split].
      * destruct (datasets w1 !! bnd_path region) as [b|] eqn:Hb;
          [|by rewrite region_body_raises_at_start by tauto].
        destruct (datasets w1 !! nlcd_path) as [n|] eqn:Hn;
          [|by rewrite region_body_raises_at_start by tauto].
        destruct (datasets w1 !! density_path region) as [d|] eqn:Hd.
        -- rewrite (region_body_returns region w1 b n d) in Hr by done. done.
        -- by rewrite (region_body_raises_at_density region w1 b n) by done.
      * by apply region_body_raised_no_mask.
      * destruct (datasets w1 !! bnd_path region) as [b|] eqn:Hb;
          [|left; by rewrite region_body_raises_at_start by tauto].
        destruct (datasets w1 !! nlcd_path) as [n|] eqn:Hn;
          [|left; by rewrite region_body_raises_at_start by tauto].
        destruct (datasets w1 !! density_path region) as [d|] eqn:Hd.
        -- rewrite (region_body_returns region w1 b n d) in Hr by done. done.
        -- right. rewrite (region_body_raises_at_density region w1 b n) by done.
           cbn [snd datasets]. eauto.
  - intros huc_body v1 v2. split; [apply for_each_try_returns|]. split.
    + unfold huc_loop. by rewrite for_each_try_step.
    + subst v2. rewrite try_except_print.
      by destruct ((huc_body region v1).1) as [[]|].
Qed.

(** ** Thresholds *)

Lemma lookup_Con_1_0 (env : environment) (cond : gmap cell Z) (c : cell) :
  Con env cond (Const 1) (Some (Const 0)) !! c =
    (λ v, if decide (v = 0) then 0 else 1) <$> clip env cond !! c.
Proof.
  unfold Con. rewrite lookup_tabulate, clip_lookup. case_decide; [|done].
  destruct (cond !! c); [|done]. simpl. by case_decide.
Qed.

Lemma lookup_rdd01 (env : environment) (density : gmap cell Z) (level : Z) (c : cell) :
  rdd01 env density level !! c =
    (λ v, if decide (level ≤ v) then 1 else 0) <$> clip env density !! c.
Proof.
  unfold rdd01. rewrite lookup_Con_1_0, !clip_lookup.
  case_decide as Hc; [|done].
  rewrite lookup_GreaterThanEqual by done.
  destruct (density !! c) as [v|]; [|done]. simpl.
  destruct (Z.leb_spec level v); simpl;
    repeat case_decide; first [done | lia].
Qed.

Lemma lookup_urb01 (env : environment) (nlcd : gmap cell Z) (low : Z) (c : cell) :
  Con env (BooleanAnd env (GreaterThan env nlcd low) (LessThan env nlcd 25))
      (Const 1) (Some (Const 0)) !! c =
    (λ v, if decide (low < v < 25) then 1 else 0) <$> clip env nlcd !! c.
Proof.
  rewrite lookup_Con_1_0, !clip_lookup.
  case_decide as Hc; [|done].
  rewrite lookup_BooleanAnd, lookup_GreaterThan, lookup_LessThan by done.
  destruct (nlcd !! c) as [v|]; [|done]. simpl.
  destruct (Z.ltb_spec low v), (Z.ltb_spec v 25); simpl;
    repeat case_decide; first [done | lia].
Qed.

(** C4, as the rasters are computed.  A threshold ([Con] over a comparison,
    lines 118, 140, 162-168) holds 1 where the input has a value that passes
    the test, 0 where it has a value that does not, and NoData where the
    input is NoData or outside the analysis environment. *)
Theorem threshold_keeps_NoData
    (env : environment) (nlcd density : gmap cell Z) (c : cell) :
  tmp1_urb01 env nlcd !! c =
    (λ v, if decide (21 < v < 25) then 1 else 0) <$> clip env nlcd !! c ∧
  tmp2_urb01 env nlcd !! c =
    (λ v, if decide (22 < v < 25) then 1 else 0) <$> clip env nlcd !! c ∧
  tmp1_rdd01 env density !! c =
    (λ v, if decide (25 ≤ v) then 1 else 0) <$> clip env density !! c ∧
  tmp2_rdd01 env density !! c =
    (λ v, if decide (65 ≤ v) then 1 else 0) <$> clip env density !! c ∧
  tmp3_rdd01 env density !! c =
    (λ v, if decide (130 ≤ v) then 1 else 0) <$> clip env density !! c.
Proof.
  split; [apply lookup_urb01|]. split; [apply lookup_urb01|].
  split; [apply (lookup_rdd01 env density 25)|].
  split; [apply (lookup_rdd01 env density 65)|].
  apply (lookup_rdd01 env density 130).
Qed.

(** C4, as claimed, fails: a NoData cell of the input inside the
    environment is NoData in the threshold, not 0. *)
Lemma threshold_of_NoData_is_not_zero :
  (0, 0) ∈ ({[ (0, 0) ]} : gset cell) ∧
  (∅ : gmap cell Z) !! (0, 0) = None ∧
  tmp1_rdd01 {[ (0, 0) ]} ∅ !! (0, 0) = None ∧
  tmp1_rdd01 {[ (0, 0) ]} ∅ !! (0, 0) ≠ Some 0 ∧
  tmp1_urb01 {[ (0, 0) ]} ∅ !! (0, 0) ≠ Some 0.
Proof.
  split; [set_solver|]. split; [done|]. split; [by vm_compute|].
  split; by vm_compute.
Qed.

(** ** The avoidance score *)

Lemma Con_1_0_values (env : environment) (cond : gmap cell Z) (c : cell) :
  Con env cond (Const 1) (Some (Const 0)) !! c = None ∨
  Con env cond (Const 1) (Some (Const 0)) !! c = Some 0 ∨
  Con env cond (Const 1) (Some (Const 0)) !! c = Some 1.
Proof.
  rewrite lookup_Con_1_0. destruct (clip env cond !! c) as [v|]; [|by left].
  right. simpl. case_decide; [by left|by right].
Qed.

Lemma lookup_sum3 (env : environment) (a b d : gmap cell Z) (c : cell) :
  (c ∉ env → a !! c = None) →
  Plus env (Plus env a b) d !! c =
    match a !! c, b !! c, d !! c with
    | Some x, Some y, Some z => Some (x + y + z)
    | _, _, _ => None
    end.
Proof.
  intros Hout. destruct (decide (c ∈ env)) as [Hc|Hc].
  - rewrite !lookup_Plus by done. by destruct (a !! c), (b !! c), (d !! c).
  - unfold Plus at 1. rewrite lookup_outside by done. by rewrite Hout.
Qed.

Lemma count_true_sum (x y z : Z) :
  (x = 0 ∨ x = 1) → (y = 0 ∨ y = 1) → (z = 0 ∨ z = 1) →
  x + y + z = count_true [Some x; Some y; Some z].
Proof. intros [-> | ->] [-> | ->] [-> | ->]; reflexivity. Qed.

(** The score of a region, cell by cell, from its three criteria. *)
Lemma avdMask_cell (env : environment) (nlcd density : gmap cell Z) (c : cell) :
  let crit1 := tmp1_avd02 env nlcd density in
  let crit2 := tmp2_avd02 env nlcd density in
  let crit3 := tmp3_avd02 env nlcd density in
  let score := avdMask env nlcd density in
  score !! c =
    match crit1 !! c, crit2 !! c, crit3 !! c with
    | Some x, Some y, Some z => Some (x + y + z)
    | _, _, _ => None
    end ∧
  (∀ o, o ∈ [crit1 !! c; crit2 !! c; crit3 !! c] →
        o = None ∨ o = Some 0 ∨ o = Some 1) ∧
  (∀ v, score !! c = Some v →
        (v = 0 ∨ v = 1 ∨ v = 2 ∨ v = 3) ∧
        v = count_true [crit1 !! c; crit2 !! c; crit3 !! c] ∧
        ∀ k, k ≤ v → k ≤ count_true [crit1 !! c; crit2 !! c; crit3 !! c]).
Proof.
  intros crit1 crit2 crit3 score.
  pose proof (Con_1_0_values env (GreaterThan env (tmp1_avd01 env nlcd density) 0) c) as H1.
  pose proof (Con_1_0_values env (GreaterThan env (tmp2_avd01 env nlcd density) 0) c) as H2.
  pose proof (Con_1_0_values env (GreaterThan env (tmp3_avd01 env nlcd density) 0) c) as H3.
  change (Con env _ _ _) with crit1 in H1.
  change (Con env _ _ _) with crit2 in H2.
  change (Con env _ _ _) with crit3 in H3.
  assert (Hscore : score !! c =
            match crit1 !! c, crit2 !! c, crit3 !! c with
            | Some x, Some y, Some z => Some (x + y + z)
            | _, _, _ => None
            end).
  { subst score. unfold avdMask. apply lookup_sum3.
    intros Hc. subst crit1. unfold tmp1_avd02, Con. by rewrite lookup_outside. }
  split; [exact Hscore|]. split.
  - intros o Ho. rewrite !elem_of_cons, elem_of_nil in Ho.
    destruct Ho as [->|[->|[->|[]]]]; assumption.
  - intros v. rewrite Hscore.
    destruct (crit1 !! c) as [x|]; [|done].
    destruct (crit2 !! c) as [y|]; [|done].
    destruct (crit3 !! c) as [z|]; [|done].
    intros [= <-].
    assert (Hx : x = 0 ∨ x = 1) by (destruct H1 as [?|[?|?]]; simplify_eq; auto).
    assert (Hy : y = 0 ∨ y = 1) by (destruct H2 as [?|[?|?]]; simplify_eq; auto).
    assert (Hz : z = 0 ∨ z = 1) by (destruct H3 as [?|[?|?]]; simplify_eq; auto).
    rewrite <- (count_true_sum x y z) by done.
    split; [lia|]. split; [done|]. intros k Hk. exact Hk.
Qed.

Lemma region_body_returned (region : string) (w : world) :
  (region_body region w).1 = Returned () →
  ∃ b n d,
    datasets w !! bnd_path region = Some b ∧
    datasets w !! nlcd_path = Some n ∧
    datasets w !! density_path region = Some d ∧
    datasets (region_body region w).2 =
      region_datasets region (dom b ∩ dom b) n d (datasets w).
Proof.
  intros Hret.
  assert (Hin : ¬ (region_body region w).1 = Raised) by (rewrite Hret; done).
  rewrite region_body_raises_iff in Hin.
  destruct (datasets w !! bnd_path region) as [b|] eqn:Hb; [|tauto].
  destruct (datasets w !! nlcd_path) as [n|] eqn:Hn; [|tauto].
  destruct (datasets w !! density_path region) as [d|] eqn:Hd; [|tauto].
  exists b, n, d. repeat (split; [done|]).
  by rewrite (region_body_returns region w b n d) by done.
Qed.

(** C1.  For every run of the body of a region that returns, the raster
    saved as the avoidance mask of the region is, cell by cell, the sum of
    the three criterion rasters [tmp1_avd02], [tmp2_avd02], [tmp3_avd02]
    left in the scratch directory (NoData where a criterion is NoData).
    Every criterion cell with a value is 0 or 1, so every score is 0, 1, 2
    or 3 and equals the number of criteria that are true at the cell: a
    score of at least [k] means at least [k] true criteria. *)
Theorem avoidance_score_is_sum_of_criteria (region : string) (w : world) :
  (region_body region w).1 = Returned () →
  ∃ crit1 crit2 crit3 score : gmap cell Z,
    datasets (region_body region w).2 !! (scratch_dir region +:+ "\tmp1_avd02")
      = Some crit1 ∧
    datasets (region_body region w).2 !! (scratch_dir region +:+ "\tmp2_avd02")
      = Some crit2 ∧
    datasets (region_body region w).2 !! (scratch_dir region +:+ "\tmp3_avd02")
      = Some crit3 ∧
    datasets (region_body region w).2 !! avoid_path region = Some score ∧
    ∀ c,
      score !! c =
        match crit1 !! c, crit2 !! c, crit3 !! c with
        | Some x, Some y, Some z => Some (x + y + z)
        | _, _, _ => None
        end ∧
      (∀ o, o ∈ [crit1 !! c; crit2 !! c; crit3 !! c] →
            o = None ∨ o = Some 0 ∨ o = Some 1) ∧
      (∀ v, score !! c = Some v →
            (v = 0 ∨ v = 1 ∨ v = 2 ∨ v = 3) ∧
            v = count_true [crit1 !! c; crit2 !! c; crit3 !! c] ∧
            ∀ k, k ≤ v → k ≤ count_true [crit1 !! c; crit2 !! c; crit3 !! c]).
Proof.
  intros (b & n & d & _ & _ & _ & ->)%region_body_returned.
  exists (tmp1_avd02 (dom b ∩ dom b) n d), (tmp2_avd02 (dom b ∩ dom b) n d),
         (tmp3_avd02 (dom b ∩ dom b) n d), (avdMask (dom b ∩ dom b) n d).
  unfold region_datasets, scratch_datasets.
  split; [lookup_path|]. split; [lookup_path|]. split; [lookup_path|].
  split; [lookup_path|]. intros c. apply avdMask_cell.
Qed.

Lemma avoidance_score_is_sum_of_criteria_witness :
  (region_body "ne" example_world).1 = Returned () ∧
  ∃ score : gmap cell Z,
    datasets (region_body "ne" example_world).2 !! avoid_path "ne" = Some score ∧
    ∀ c v, score !! c = Some v → v = 0 ∨ v = 1 ∨ v = 2 ∨ v = 3.
Proof.
  assert (H : (region_body "ne" example_world).1 = Returned ())
    by (vm_compute; reflexivity).
  split; [exact H|].
  destruct (avoidance_score_is_sum_of_criteria "ne" example_world H)
    as (crit1 & crit2 & crit3 & score & _ & _ & _ & Hscore & Hcells).
  exists score. split; [exact Hscore|].
  intros c v Hv. exact (proj1 (proj2 (proj2 (Hcells c)) v Hv)).
Defined.

(** The run on the example: a row of the final mask. *)
Example avoid_mask_ne_row :
  (λ k, datasets (region_body "ne" example_world).2 !! avoid_path "ne"
          ≫= (λ score, score !! (4, k))) <$> [5; 6; 7; 8; 9] =
  [Some 3; Some 1; Some 3; Some 2; Some 1].
Proof. vm_compute. reflexivity. Qed.

(** ** The medium and the high criterion *)

Lemma lookup_avd02 (env : environment) (urb06 rdd : gmap cell Z) (c : cell) :
  c ∈ env →
  avd02 env urb06 rdd !! c =
    match urb06 !! c, rdd !! c with
    | Some x, Some y => Some (if decide (0 < x + y) then 1 else 0)
    | _, _ => None
    end.
Proof.
  intros Hc. unfold avd02.
  rewrite lookup_Con_1_0, clip_lookup, decide_True by done.
  rewrite lookup_GreaterThan, lookup_Plus by done.
  destruct (urb06 !! c) as [x|]; [|done]. destruct (rdd !! c) as [y|]; [|done].
  simpl. destruct (Z.ltb_spec 0 (x + y)); simpl;
    repeat case_decide; first [done | lia].
Qed.

(** The rasters of the low level, by the same stages. *)
Lemma low_criterion_stages (env : environment) (nlcd density : gmap cell Z) :
  tmp1_urb04 env nlcd = size_filter env (tmp1_urb01 env nlcd) ∧
  tmp1_urb06 env nlcd = buffer env (tmp1_urb04 env nlcd) 120 ∧
  tmp1_rdd01 env density = rdd01 env density 25 ∧
  tmp1_avd02 env nlcd density =
    avd02 env (tmp1_urb06 env nlcd) (rdd01 env density 25).
Proof.
  unfold tmp1_avd02, tmp1_avd01, tmp1_rdd01,
    tmp1_urb06, tmp1_urb05, tmp1_urb04, tmp1_urb03, tmp1_urb02,
    avd02, rdd01, buffer, size_filter.
  cbv zeta. split_and!; reflexivity.
Qed.

(** The rasters of the medium and of the high level are one function of the
    same buffer, applied to the density reclassed at 65 and at 130. *)
Lemma criteria_share_buffer (env : environment) (nlcd density : gmap cell Z) :
  tmp2_urb06 env nlcd = buffer env (tmp2_urb04 env nlcd) 90 ∧
  tmp2_urb04 env nlcd = size_filter env (tmp2_urb01 env nlcd) ∧
  tmp2_rdd01 env density = rdd01 env density 65 ∧
  tmp3_rdd01 env density = rdd01 env density 130 ∧
  tmp2_avd01 env nlcd density =
    Plus env (tmp2_urb06 env nlcd) (rdd01 env density 65) ∧
  tmp3_avd01 env nlcd density =
    Plus env (tmp2_urb06 env nlcd) (rdd01 env density 130) ∧
  tmp2_avd02 env nlcd density =
    avd02 env (tmp2_urb06 env nlcd) (rdd01 env density 65) ∧
  tmp3_avd02 env nlcd density =
    avd02 env (tmp2_urb06 env nlcd) (rdd01 env density 130).
Proof.
  unfold tmp2_avd02, tmp3_avd02, tmp2_avd01, tmp3_avd01, tmp2_rdd01, tmp3_rdd01,
    tmp2_urb06, tmp2_urb05, tmp2_urb04, tmp2_urb03, tmp2_urb02,
    avd02, rdd01, buffer, size_filter.
  cbv zeta. split_and!; reflexivity.
Qed.

Lemma high_criterion_below_medium
    (env : environment) (buf density : gmap cell Z) (c : cell) :
  avd02 env buf (rdd01 env density 130) !! c = Some 1 →
  avd02 env buf (rdd01 env density 65) !! c = Some 1.
Proof.
  destruct (decide (c ∈ env)) as [Hc|Hc].
  - rewrite !lookup_avd02, !lookup_rdd01 by done.
    destruct (buf !! c) as [x|]; [|done].
    destruct (clip env density !! c) as [v|]; [|done]. simpl.
    repeat case_decide; first [done | lia].
  - unfold avd02, Con. by rewrite !lookup_outside.
Qed.

(** C2.  In every run of the body that returns, the criterion of the high
    level is computed from the same buffer raster as the criterion of the
    medium level: [tmp2_urb06], the 90 m buffer of the size-filtered mask of
    classes 23 and 24.  [tmp2_avd02] and [tmp3_avd02] are the same function
    [avd02] (sum with the buffer, then [> 0]) of that buffer and of the
    density reclassed at 65 and at 130; they differ only by the threshold,
    and the high criterion is true only where the medium one is. *)
Theorem high_criterion_reuses_medium_buffer (region : string) (w : world) :
  (region_body region w).1 = Returned () →
  ∃ (env : environment) (urb04 buf density : gmap cell Z),
    datasets w !! density_path region = Some density ∧
    datasets (region_body region w).2 !! (scratch_dir region +:+ "\tmp2_urb04")
      = Some urb04 ∧
    datasets (region_body region w).2 !! (scratch_dir region +:+ "\tmp2_urb06")
      = Some buf ∧
    buf = buffer env urb04 90 ∧
    datasets (region_body region w).2 !! (scratch_dir region +:+ "\tmp2_rdd01")
      = Some (rdd01 env density 65) ∧
    datasets (region_body region w).2 !! (scratch_dir region +:+ "\tmp3_rdd01")
      = Some (rdd01 env density 130) ∧
    datasets (region_body region w).2 !! (scratch_dir region +:+ "\tmp2_avd01")
      = Some (Plus env buf (rdd01 env density 65)) ∧
    datasets (region_body region w).2 !! (scratch_dir region +:+ "\tmp3_avd01")
      = Some (Plus env buf (rdd01 env density 130)) ∧
    datasets (region_body region w).2 !! (scratch_dir region +:+ "\tmp2_avd02")
      = Some (avd02 env buf (rdd01 env density 65)) ∧
    datasets (region_body region w).2 !! (scratch_dir region +:+ "\tmp3_avd02")
      = Some (avd02 env buf (rdd01 env density 130)) ∧
    ∀ c, avd02 env buf (rdd01 env density 130) !! c = Some 1 →
         avd02 env buf (rdd01 env density 65) !! c = Some 1.
Proof.
  intros (b & n & d & _ & _ & Hd & ->)%region_body_returned.
  destruct (criteria_share_buffer (dom b ∩ dom b) n d)
    as (E1 & _ & E3 & E4 & E5 & E6 & E7 & E8).
  exists (dom b ∩ dom b), (tmp2_urb04 (dom b ∩ dom b) n),
         (tmp2_urb06 (dom b ∩ dom b) n), d.
  rewrite <- E7, <- E8, <- E5, <- E6, <- E3, <- E4.
  unfold region_datasets, scratch_datasets, urban_datasets.
  split; [exact Hd|].
  split; [lookup_path|]. split; [lookup_path|]. split; [exact E1|].
  split; [lookup_path|]. split; [lookup_path|]. split; [lookup_path|].
  split; [lookup_path|]. split; [lookup_path|]. split; [lookup_path|].
  rewrite E7, E8. intros c. apply high_criterion_below_medium.
Qed.

Lemma high_criterion_reuses_medium_buffer_witness :
  (region_body "ne" example_world).1 = Returned () ∧
  ∃ (env : environment) (buf density : gmap cell Z),
    datasets (region_body "ne" example_world).2
      !! (scratch_dir "ne" +:+ "\tmp2_avd02")
      = Some (avd02 env buf (rdd01 env density 65)) ∧
    datasets (region_body "ne" example_world).2
      !! (scratch_dir "ne" +:+ "\tmp3_avd02")
      = Some (avd02 env buf (rdd01 env density 130)).
Proof.
  assert (H : (region_body "ne" example_world).1 = Returned ())
    by (vm_compute; reflexivity).
  split; [exact H|].
  destruct (high_criterion_reuses_medium_buffer "ne" example_world H)
    as (env & urb04 & buf & density & _ & _ & _ & _ & _ & _ & _ & _ & H2 & H3 & _).
  exists env, buf, density. split; [exact H2|exact H3].
Defined.
